(** * Bidirectional compatibility scoring and ranking engine

    Shallow embedding of [supabase/functions/_shared/matching.ts]: the three
    attribute scorers, [calculateCompatibilityScore], [calculateMutualScore]
    and [findTopMatches].

    A JavaScript [number] is an IEEE 754 binary64 value: it is modelled by
    Rocq's primitive [float], whose operations are specified against
    [SpecFloat] by the axioms of [FloatAxioms], so that NaN, the infinities
    and the signed zeros behave as in the program.  [null]/[undefined]
    attribute values and absent preference fields are [option]s, an array is
    a [list], and the [limit] of [findTopMatches] is a natural number.

    The development also covers the rest of the module and the code around
    it: [findTopMatchesFromDB] over a store that answers the query by type,
    [generateMatchReasons], the [convertNullToUndefined] of the edge
    functions and of the seed script, the match rows that
    [get-incoming-apple] and [get-incoming-orange] store and the way
    [send-message] reads them, and the quality label of [MatchCard]. *)

From Stdlib Require Import ZArith Bool List String Lia Floats Permutation.
From Stdlib Require Uint63.
Import ListNotations.

#[local] Open Scope float_scope.

(** ** The JavaScript built-ins used by the engine *)

Module JS.

Definition number := float.

(** The integer [n] as a number (exact for [|n| <= 2^53]). *)
Definition number_of_Z (n : Z) : number :=
  match n with
  | Z0 => 0
  | Zpos _ => of_uint63 (Uint63.of_Z n)
  | Zneg p => - of_uint63 (Uint63.of_Z (Zpos p))
  end.

Definition Math_abs (x : number) : number := PrimFloat.abs x.

Definition Math_sqrt (x : number) : number := PrimFloat.sqrt x.

(** [Math.max(a, b)]: NaN if either argument is NaN; [+0] is larger than
    [-0]. *)
Definition Math_max (a b : number) : number :=
  if is_nan a || is_nan b then nan
  else if a <? b then b
  else if b <? a then a
  else if get_sign a then b else a.

(** [Math.min(a, b)]: NaN if either argument is NaN; [-0] is smaller than
    [+0]. *)
Definition Math_min (a b : number) : number :=
  if is_nan a || is_nan b then nan
  else if a <? b then a
  else if b <? a then b
  else if get_sign a then a else b.

(** [Math.round(x)]: the integral number closest to [x], ties towards
    +infinity; NaN, the infinities, the zeros and integral numbers are
    returned unchanged, and a result of zero keeps the sign of [x].  For a
    finite [x = (-1)^s * m * 2^e] with [e < 0] the result is
    [floor (x + 1/2)], computed exactly on integers. *)
Definition Math_round (x : number) : number :=
  match Prim2SF x with
  | S754_finite s m e =>
      if (0 <=? e)%Z then x
      else
        let n := Z.shiftr (2 * cond_Zopp s (Zpos m) + 2 ^ (- e)) (1 - e) in
        if (n =? 0)%Z then (if s then neg_zero else zero)
        else number_of_Z n
  | _ => x
  end.

Section ArraySort.
Context {A : Type}.
(** The comparison function handed to [Array.prototype.sort]. *)
Variable comparefn : A -> A -> number.

(** [SortCompare]: a NaN result of [comparefn] counts as [+0]; [x] has
    to move behind [y] exactly when [comparefn x y > 0]. *)
Definition sorts_after (x y : A) : bool := 0 <? comparefn x y.

Fixpoint sort_insert (x : A) (l : list A) : list A :=
  match l with
  | [] => [x]
  | y :: l' => if sorts_after x y then y :: sort_insert x l'
               else x :: y :: l'
  end.

(** [Array.prototype.sort] is a stable sort (ECMAScript 2019): an
    element only moves behind the elements that [comparefn] puts
    strictly before it.  For a consistent [comparefn] this is the order every
    implementation returns; for an inconsistent one (a [comparefn] that
    returns NaN for some pairs only) the standard leaves the order to the
    implementation, and this is the order of an insertion sort. *)
Fixpoint Array_sort (l : list A) : list A :=
  match l with
  | [] => []
  | x :: l' => sort_insert x (Array_sort l')
  end.
End ArraySort.

(** [arr.slice(0, limit)] for an integer [limit >= 0]. *)
Definition Array_slice0 {A : Type} (l : list A) (limit : nat) : list A :=
  firstn limit l.

(** [arr.includes(v)] on an array of strings. *)
Definition Array_includes (l : list string) (v : string) : bool :=
  existsb (String.eqb v) l.

End JS.

Import JS.

(** ** Data model ([FruitAttributes], [FruitPreferences], [Fruit], [Match]) *)

Module FruitAttributes.
Record t := mk {
  size : option number;
  weight : option number;
  hasStem : option bool;
  hasLeaf : option bool;
  hasWorm : option bool;
  shineFactor : option string;
  hasChemicals : option bool
}.
End FruitAttributes.

(** [{ min?: number; max?: number }] *)
Record NumericPreference := { min : option number; max : option number }.

(** [string | string[]] *)
Inductive EnumPreference :=
| Single (s : string)
| Many (l : list string).

Module FruitPreferences.
Record t := mk {
  size : option NumericPreference;
  weight : option NumericPreference;
  hasStem : option bool;
  hasLeaf : option bool;
  hasWorm : option bool;
  shineFactor : option EnumPreference;
  hasChemicals : option bool
}.

(** [preferences: {}] *)
Definition empty : t := mk None None None None None None None.
End FruitPreferences.

Inductive FruitType := apple | orange.

Record Fruit := {
  id : option string;
  type : FruitType;
  attributes : FruitAttributes.t;
  preferences : FruitPreferences.t
}.

Record Match := {
  fruit : Fruit;
  fruitId : string;
  seekerToFruitScore : number;
  fruitToSeekerScore : number;
  mutualScore : number
}.

(** JavaScript truthiness of a [string | string[]] value: only the empty
    string is falsy, every array (the empty one too) is truthy. *)
Definition truthy (p : EnumPreference) : bool :=
  match p with
  | Single s => negb (String.eqb s "")
  | Many _ => true
  end.

(** ** Attribute scorers *)

Definition scoreNumericAttribute
    (preference : option NumericPreference) (actualValue : option number)
  : number :=
  match preference with
  | None => 0
  | Some p =>
    match min p, max p with
    | None, None => 0
    | _, _ =>
      match actualValue with
      | None => 0
      | Some v =>
        if match min p with Some mn => v <? mn | None => false end then -20
        else if match max p with Some mx => mx <? v | None => false end
        then -20
        else
          match min p, max p with
          | Some mn, Some mx =>
              let rangeCenter := (mn + mx) / 2 in
              let rangeWidth := mx - mn in
              let distance := Math_abs (v - rangeCenter) in
              let proximity := 1 - distance / (rangeWidth / 2) in
              15 * Math_max 0 proximity
          | Some mn, None =>
              let distance := v - mn in
              let proximity := Math_max 0 (1 - distance / 5) in
              15 * proximity
          | None, Some mx =>
              let distance := mx - v in
              let proximity := Math_max 0 (1 - distance / 5) in
              15 * proximity
          | None, None => 0
          end
      end
    end
  end.

Definition scoreBooleanAttribute
    (preference : option bool) (actualValue : option bool) : number :=
  match preference with
  | None => 0
  | Some p =>
    match actualValue with
    | None => 0
    | Some v => if Bool.eqb v p then 15 else -25
    end
  end.

Definition scoreEnumAttribute
    (preference : option EnumPreference) (actualValue : option string)
  : number :=
  match preference with
  | None => 0
  | Some p =>
    if negb (truthy p) then 0
    else
      match actualValue with
      | None => 0
      | Some v =>
        let acceptableValues :=
          match p with Many l => l | Single s => [s] end in
        if Array_includes acceptableValues v then 12 else -15
      end
  end.

(** ** Directional score *)

Definition calculateCompatibilityScore (seeker candidate : Fruit) : number :=
  let seekerPrefs := preferences seeker in
  let candidateAttrs := attributes candidate in
  let score := 50 in
  let score :=
    match FruitPreferences.size seekerPrefs with
    | Some _ => score + scoreNumericAttribute
                          (FruitPreferences.size seekerPrefs)
                          (FruitAttributes.size candidateAttrs)
    | None => score
    end in
  let score :=
    match FruitPreferences.weight seekerPrefs with
    | Some _ => score + scoreNumericAttribute
                          (FruitPreferences.weight seekerPrefs)
                          (FruitAttributes.weight candidateAttrs)
    | None => score
    end in
  let score :=
    match FruitPreferences.hasStem seekerPrefs with
    | Some _ => score + scoreBooleanAttribute
                          (FruitPreferences.hasStem seekerPrefs)
                          (FruitAttributes.hasStem candidateAttrs)
    | None => score
    end in
  let score :=
    match FruitPreferences.hasLeaf seekerPrefs with
    | Some _ => score + scoreBooleanAttribute
                          (FruitPreferences.hasLeaf seekerPrefs)
                          (FruitAttributes.hasLeaf candidateAttrs)
    | None => score
    end in
  let score :=
    match FruitPreferences.hasWorm seekerPrefs with
    | Some _ => score + scoreBooleanAttribute
                          (FruitPreferences.hasWorm seekerPrefs)
                          (FruitAttributes.hasWorm candidateAttrs)
    | None => score
    end in
  let score :=
    match FruitPreferences.hasChemicals seekerPrefs with
    | Some _ => score + scoreBooleanAttribute
                          (FruitPreferences.hasChemicals seekerPrefs)
                          (FruitAttributes.hasChemicals candidateAttrs)
    | None => score
    end in
  let score :=
    match FruitPreferences.shineFactor seekerPrefs with
    | Some p =>
        if truthy p
        then score + scoreEnumAttribute
                       (FruitPreferences.shineFactor seekerPrefs)
                       (FruitAttributes.shineFactor candidateAttrs)
        else score
    | None => score
    end in
  Math_max 0 (Math_min 100 score).

(** ** Mutual score *)

Definition calculateMutualScore (fruitA fruitB : Fruit) : number :=
  let aToB := calculateCompatibilityScore fruitA fruitB in
  let bToA := calculateCompatibilityScore fruitB fruitA in
  let mutualScore := Math_sqrt (aToB * bToA) in
  Math_round (mutualScore * 10) / 10.

(** ** Ranker *)

(** The record built for one candidate by the callback of
    [candidates.map]. *)
Definition scoreMatch (seeker candidate : Fruit) : Match :=
  let seekerToFruitScore := calculateCompatibilityScore seeker candidate in
  let fruitToSeekerScore := calculateCompatibilityScore candidate seeker in
  let mutualScore := Math_sqrt (seekerToFruitScore * fruitToSeekerScore) in
  {| fruit := candidate;
     fruitId := match id candidate with
                | Some i => if String.eqb i "" then "unknown" else i
                | None => "unknown"
                end;
     seekerToFruitScore := Math_round (seekerToFruitScore * 10) / 10;
     fruitToSeekerScore := Math_round (fruitToSeekerScore * 10) / 10;
     mutualScore := Math_round (mutualScore * 10) / 10 |}.

(** [(a, b) => b.mutualScore - a.mutualScore] *)
Definition byMutualScoreDesc (a b : Match) : number :=
  mutualScore b - mutualScore a.

Definition findTopMatches
    (seeker : Fruit) (candidates : list Fruit) (limit : nat) : list Match :=
  let scoredMatches := map (scoreMatch seeker) candidates in
  let sortedMatches := Array_sort byMutualScoreDesc scoredMatches in
  Array_slice0 sortedMatches limit.

(** [limit = 5] when the caller leaves it out. *)
Definition findTopMatches_default (seeker : Fruit) (candidates : list Fruit)
  : list Match := findTopMatches seeker candidates 5.

(** ** Vocabulary of the properties *)

(** A score is in range when it lies in [[0, 100]] (false for NaN). *)
Definition in_range (x : number) : bool := (0 <=? x) && (x <=? 100).

(** A list of scores is in descending order. *)
Fixpoint descending (l : list number) : bool :=
  match l with
  | x :: (y :: _) as l' => (y <=? x) && descending l'
  | _ => true
  end.

(** Matches whose mutual score equals [k]. *)
Definition scored (k : number) (m : Match) : bool := mutualScore m =? k.

(** Rounding to one decimal place and the geometric mean, as the
    specification of the mutual score words them. *)
Definition roundToOneDecimal (x : number) : number := Math_round (x * 10) / 10.

Definition geometricMean (a b : number) : number := Math_sqrt (a * b).

(** The seven dimensions of an attribute set and of a preference set. *)
Inductive Dimension :=
| DSize | DWeight | DHasStem | DHasLeaf | DHasWorm | DShineFactor
| DHasChemicals.

Definition is_unknown {A : Type} (o : option A) : bool :=
  match o with None => true | Some _ => false end.

(** The candidate's value of dimension [d] is [null]. *)
Definition attributeUnknown (d : Dimension) (a : FruitAttributes.t) : bool :=
  match d with
  | DSize => is_unknown (FruitAttributes.size a)
  | DWeight => is_unknown (FruitAttributes.weight a)
  | DHasStem => is_unknown (FruitAttributes.hasStem a)
  | DHasLeaf => is_unknown (FruitAttributes.hasLeaf a)
  | DHasWorm => is_unknown (FruitAttributes.hasWorm a)
  | DShineFactor => is_unknown (FruitAttributes.shineFactor a)
  | DHasChemicals => is_unknown (FruitAttributes.hasChemicals a)
  end.

(** The preference set [p] with the preference of dimension [d] absent. *)
Definition withoutPreference (d : Dimension) (p : FruitPreferences.t)
  : FruitPreferences.t :=
  let '(FruitPreferences.mk sz wt st lf wm sh ch) := p in
  match d with
  | DSize => FruitPreferences.mk None wt st lf wm sh ch
  | DWeight => FruitPreferences.mk sz None st lf wm sh ch
  | DHasStem => FruitPreferences.mk sz wt None lf wm sh ch
  | DHasLeaf => FruitPreferences.mk sz wt st None wm sh ch
  | DHasWorm => FruitPreferences.mk sz wt st lf None sh ch
  | DShineFactor => FruitPreferences.mk sz wt st lf wm None ch
  | DHasChemicals => FruitPreferences.mk sz wt st lf wm sh None
  end.

Definition forgetPreference (d : Dimension) (f : Fruit) : Fruit :=
  {| id := id f; type := type f; attributes := attributes f;
     preferences := withoutPreference d (preferences f) |}.

(** Two running totals are alike when they are the same number or are both
    zeros (of either sign). *)
Definition alike (x y : number) : Prop :=
  x = y \/
  ((exists b, Prim2SF x = S754_zero b) /\ (exists b, Prim2SF y = S754_zero b)).

(** ** Vocabulary on [spec_float] *)

(** [x] is an infinity or a non-zero finite number of sign [s]. *)
Definition strictly (s : bool) (x : spec_float) : Prop :=
  match x with
  | S754_infinity b | S754_finite b _ _ => b = s
  | _ => False
  end.

(** The mantissa of a finite number at the common exponent [ez], signed. *)
Definition aligned (ez : Z) (s : bool) (m : positive) (e : Z) : Z :=
  cond_Zopp s (Zpos (fst (shl_align m e ez))).

(** ** Sample entities *)

Definition sampleAttributes (sz : number) : FruitAttributes.t :=
  FruitAttributes.mk (Some sz) (Some 180) (Some true) (Some false)
    (Some false) (Some "shiny"%string) (Some false).

(** A size preference whose range is the single point [m]. *)
Definition pointSize (m : number) : FruitPreferences.t :=
  FruitPreferences.mk (Some {| min := Some m; max := Some m |})
    None None None None None None.

Definition wormFree : FruitPreferences.t :=
  FruitPreferences.mk None None None None (Some false) None None.

(** Wants a large, heavy, stemless candidate. *)
Definition demanding : FruitPreferences.t :=
  FruitPreferences.mk (Some {| min := Some 9; max := Some 10 |})
    (Some {| min := Some 300; max := None |}) (Some false)
    None None None None.

Definition anApple (p : FruitPreferences.t) : Fruit :=
  {| id := Some "fruits:apple1"%string; type := apple;
     attributes := sampleAttributes 5; preferences := p |}.

Definition anOrange (i : string) (p : FruitPreferences.t) : Fruit :=
  {| id := Some i; type := orange;
     attributes := sampleAttributes 5; preferences := p |}.

(** ** The entities of the repository's tests *)

Definition appleNoPreferences : Fruit :=
  {| id := Some "fruits:apple1"%string; type := apple;
     attributes :=
       FruitAttributes.mk (Some 7) (Some 180) (Some true) (Some false)
         (Some false) (Some "shiny"%string) (Some false);
     preferences := FruitPreferences.empty |}.

Definition orangePerfectMatch : Fruit :=
  {| id := Some "fruits:orange1"%string; type := orange;
     attributes :=
       FruitAttributes.mk (Some 7.5) (Some 200) (Some false) (Some true)
         (Some false) (Some "shiny"%string) (Some false);
     preferences := FruitPreferences.empty |}.

Definition appleWithPreferences : Fruit :=
  {| id := Some "fruits:apple2"%string; type := apple;
     attributes :=
       FruitAttributes.mk (Some 6) (Some 150) (Some true) (Some true)
         (Some false) (Some "neutral"%string) (Some false);
     preferences :=
       FruitPreferences.mk
         (Some {| min := Some 7; max := Some 10 |})
         (Some {| min := Some 180; max := Some 220 |})
         None None (Some false) (Some (Many ["shiny"; "extraShiny"]%string)) None |}.

Definition orangeGoodMatch : Fruit :=
  {| id := Some "fruits:orange2"%string; type := orange;
     attributes :=
       FruitAttributes.mk (Some 8) (Some 195) (Some false) (Some false)
         (Some false) (Some "shiny"%string) (Some false);
     preferences :=
       FruitPreferences.mk None None None None (Some false) None
         (Some false) |}.

Definition orangePoorMatch : Fruit :=
  {| id := Some "fruits:orange3"%string; type := orange;
     attributes :=
       FruitAttributes.mk (Some 4) (Some 100) (Some true) (Some true)
         (Some true) (Some "dull"%string) (Some true);
     preferences :=
       FruitPreferences.mk None None None None (Some true) None None |}.

Definition appleWithNullPrefs : Fruit :=
  {| id := Some "fruits:apple3"%string; type := apple;
     attributes :=
       FruitAttributes.mk (Some 5) (Some 150) None None (Some false) None
         None;
     preferences :=
       FruitPreferences.mk None None (Some true) None None
         (Some (Single "shiny")) None |}.

Definition orangeWithNulls : Fruit :=
  {| id := Some "fruits:orange4"%string; type := orange;
     attributes :=
       FruitAttributes.mk (Some 6) (Some 170) None (Some false) (Some false)
         None (Some false);
     preferences := FruitPreferences.empty |}.

(** ** Querying the store: [findTopMatchesFromDB] *)

(** The store as [findTopMatchesFromDB] uses it: for the [$type] of the
    query [SELECT * FROM fruits WHERE type = $type], the first result set
    that [db.query] resolves to, [None] when there is none ([candidates] is
    [undefined]).  A query that is rejected makes the function reject too
    and is not part of the model. *)
Definition Surreal := FruitType -> option (list Fruit).

Definition findTopMatchesFromDB (db : Surreal) (seeker : Fruit) (limit : nat)
  : list Match :=
  let oppositeType :=
    match type seeker with apple => orange | orange => apple end in
  match db oppositeType with
  | None => []
  | Some candidates =>
      if (List.length candidates =? 0)%nat then []
      else findTopMatches seeker candidates limit
  end.

Definition FruitType_eqb (a b : FruitType) : bool :=
  match a, b with
  | apple, apple | orange, orange => true
  | _, _ => false
  end.

(** A store that holds a table of fruits and honours the [WHERE] clause. *)
Definition tableStore (fruits : list Fruit) : Surreal :=
  fun t => Some (filter (fun f => FruitType_eqb (type f) t) fruits).

(** ** Explaining a match: [generateMatchReasons] *)

#[local] Open Scope string_scope.

(** [toString] is the conversion of a number to a string in a template
    literal; [reasons.push(r)] appends [r] to the list. *)
Definition generateMatchReasons (toString : number -> string)
    (seeker : Fruit) (m : Match) : list string :=
  let reasons : list string := [] in
  let seekerPrefs := preferences seeker in
  let matchAttrs := attributes (fruit m) in
  let reasons :=
    match FruitPreferences.size seekerPrefs,
          FruitAttributes.size matchAttrs with
    | Some p, Some size =>
        match min p, max p with
        | Some mn, Some mx =>
            if ((mn <=? size)%float && (size <=? mx)%float)%bool
            then (reasons ++
                  [("Size " ++ toString size ++ " is within preferred range "
                    ++ toString mn ++ "-" ++ toString mx)%string])%list
            else reasons
        | _, _ => reasons
        end
    | _, _ => reasons
    end in
  let reasons :=
    match FruitPreferences.weight seekerPrefs,
          FruitAttributes.weight matchAttrs with
    | Some p, Some weight =>
        match min p, max p with
        | Some mn, Some mx =>
            if ((mn <=? weight)%float && (weight <=? mx)%float)%bool
            then (reasons ++
                  [("Weight " ++ toString weight
                    ++ " is within preferred range "
                    ++ toString mn ++ "-" ++ toString mx)%string])%list
            else reasons
        | _, _ => reasons
        end
    | _, _ => reasons
    end in
  let reasons :=
    match FruitPreferences.hasWorm seekerPrefs,
          FruitAttributes.hasWorm matchAttrs with
    | Some false, Some false => (reasons ++ ["Worm-free as preferred"])%list
    | _, _ => reasons
    end in
  let reasons :=
    match FruitPreferences.hasStem seekerPrefs,
          FruitAttributes.hasStem matchAttrs with
    | Some p, Some a =>
        if Bool.eqb a p
        then (reasons ++ [if p then "Has a stem" else "No stem"])%list
        else reasons
    | _, _ => reasons
    end in
  let reasons :=
    match FruitPreferences.hasLeaf seekerPrefs,
          FruitAttributes.hasLeaf matchAttrs with
    | Some p, Some a =>
        if Bool.eqb a p
        then (reasons ++ [if p then "Has a leaf" else "No leaf"])%list
        else reasons
    | _, _ => reasons
    end in
  let reasons :=
    match FruitPreferences.hasChemicals seekerPrefs,
          FruitAttributes.hasChemicals matchAttrs with
    | Some p, Some a =>
        if Bool.eqb a p
        then (reasons ++
              [if p then "Treated with chemicals" else "Chemical-free"])%list
        else reasons
    | _, _ => reasons
    end in
  let reasons :=
    match FruitPreferences.shineFactor seekerPrefs,
          FruitAttributes.shineFactor matchAttrs with
    | Some p, Some shine =>
        if (truthy p && negb (shine =? ""))%bool
        then
          let acceptable := match p with Many l => l | Single s => [s] end in
          if Array_includes acceptable shine
          then (reasons ++
                [("Shine factor (" ++ shine
                  ++ ") matches preference")%string])%list
          else reasons
        else reasons
    | _, _ => reasons
    end in
  (reasons ++
   [(toString (mutualScore m) ++ "% mutual compatibility score")%string])%list.

#[local] Close Scope string_scope.

(** ** [convertNullToUndefined] of the edge functions and the seed script *)

(** The values the function walks through: [null], [undefined], the
    primitives, arrays, and plain objects as their properties in the order
    [for ... in] enumerates them. *)
#[warnings="-register-all"] Inductive JSValue :=
| JNull
| JUndefined
| JBoolean (b : bool)
| JNumber (n : number)
| JString (s : string)
| JArray (items : list JSValue)
| JObject (properties : list (string * JSValue)).

(** [result[key] = value] on the properties of an object: an existing key
    keeps its place, a new one goes to the end. *)
Fixpoint setProperty (key : string) (value : JSValue)
    (properties : list (string * JSValue)) : list (string * JSValue) :=
  match properties with
  | [] => [(key, value)]
  | (k, v) :: rest =>
      if String.eqb k key then (k, value) :: rest
      else (k, v) :: setProperty key value rest
  end.

Fixpoint convertNullToUndefined (obj : JSValue) : JSValue :=
  match obj with
  | JNull => JUndefined
  | JArray items => JArray (map convertNullToUndefined items)
  | JObject properties =>
      JObject
        (fold_left
           (fun result kv =>
              setProperty (fst kv) (convertNullToUndefined (snd kv)) result)
           properties [])
  | _ => obj
  end.

(** ** [MatchCard]: the quality label and colour of a mutual score *)

Definition MatchCard_quality (mutualScore : number) : string * string :=
  if 80 <=? mutualScore
  then ("Excellent Match", "text-lime-600 dark:text-lime-400")%string
  else if 60 <=? mutualScore
  then ("Good Match", "text-green-600 dark:text-green-400")%string
  else if 40 <=? mutualScore
  then ("Fair Match", "text-yellow-600 dark:text-yellow-400")%string
  else ("Potential Match", "text-orange-600 dark:text-orange-400")%string.

Definition qualityLabel (mutualScore : number) : string :=
  fst (MatchCard_quality mutualScore).

(** ** The match rows the two edge functions store, and how
       [send-message] reads them *)

Record MatchRow := {
  apple_id : string;
  orange_id : string;
  apple_to_orange_score : number;
  orange_to_apple_score : number;
  mutual_score : number;
  match_explanation : string
}.

(** [get-incoming-apple]: the payloads of [db.create("matches", ...)], one
    per match of the new apple. *)
Definition appleMatchRows (toString : number -> string) (appleId : string)
    (matches : list Match) : list MatchRow :=
  map (fun m =>
         {| apple_id := appleId;
            orange_id := fruitId m;
            apple_to_orange_score := seekerToFruitScore m;
            orange_to_apple_score := fruitToSeekerScore m;
            mutual_score := mutualScore m;
            match_explanation :=
              (toString (mutualScore m) ++ "% compatibility")%string |})
      matches.

(** [get-incoming-orange]: the same for the matches of the new orange. *)
Definition orangeMatchRows (toString : number -> string) (orangeId : string)
    (matches : list Match) : list MatchRow :=
  map (fun m =>
         {| apple_id := fruitId m;
            orange_id := orangeId;
            apple_to_orange_score := fruitToSeekerScore m;
            orange_to_apple_score := seekerToFruitScore m;
            mutual_score := mutualScore m;
            match_explanation :=
              (toString (mutualScore m) ++ "% compatibility")%string |})
      matches.

(** [send-message]: the two directional scores of a stored row as the
    system prompt lists them for a fruit of type [fruitType]: its own score
    of the matched fruit, and the matched fruit's score of it. *)
Definition ownToMatchedScore (fruitType : FruitType) (row : MatchRow)
  : number :=
  match fruitType with
  | apple => apple_to_orange_score row
  | orange => orange_to_apple_score row
  end.

Definition matchedToOwnScore (fruitType : FruitType) (row : MatchRow)
  : number :=
  match fruitType with
  | apple => orange_to_apple_score row
  | orange => apple_to_orange_score row
  end.

(** ** Vocabulary for the rest of the code *)

(** The value is below an active [min] or above an active [max]. *)
Definition outOfRange (p : NumericPreference) (v : number) : bool :=
  match min p with Some mn => v <? mn | None => false end
  || match max p with Some mx => mx <? v | None => false end.

(** Both bounds of the preference are set and the value lies between
    them. *)
Definition withinBothBounds (preference : option NumericPreference)
    (actualValue : option number) : bool :=
  match preference, actualValue with
  | Some p, Some v =>
      match min p, max p with
      | Some mn, Some mx => (mn <=? v) && (v <=? mx)
      | _, _ => false
      end
  | _, _ => false
  end.

(** No preference on [size] and none on [weight]. *)
Definition noNumericPreference (f : Fruit) : Prop :=
  FruitPreferences.size (preferences f) = None /\
  FruitPreferences.weight (preferences f) = None.

(** The reasons but the trailing score line. *)
Definition attributeReasons (toString : number -> string) (seeker : Fruit)
    (m : Match) : list string :=
  removelast (generateMatchReasons toString seeker m).

(** Some entry of [l] starts with [p]. *)
Definition mentions (p : string) (l : list string) : bool :=
  existsb (String.prefix p) l.

(** The labels from best to worst. *)
Definition labelRank (label : string) : nat :=
  if String.eqb label "Excellent Match" then 3
  else if String.eqb label "Good Match" then 2
  else if String.eqb label "Fair Match" then 1
  else 0.

(** The labels do not get better from one entry to the next. *)
Fixpoint nonIncreasing (l : list nat) : bool :=
  match l with
  | x :: (y :: _) as l' => (y <=? x)%nat && nonIncreasing l'
  | _ => true
  end.

(** No [null] anywhere in a value. *)
Fixpoint nullFree (v : JSValue) : bool :=
  match v with
  | JNull => false
  | JArray items => forallb nullFree items
  | JObject properties => forallb (fun kv => nullFree (snd kv)) properties
  | _ => true
  end.

Fixpoint distinctKeys (keys : list string) : bool :=
  match keys with
  | [] => true
  | k :: rest => negb (existsb (String.eqb k) rest) && distinctKeys rest
  end.

(** The values that stand for JavaScript values: no object lists a key
    twice, at any depth. *)
Fixpoint wellFormed (v : JSValue) : bool :=
  match v with
  | JArray items => forallb wellFormed items
  | JObject properties =>
      distinctKeys (map fst properties)
      && forallb (fun kv => wellFormed (snd kv)) properties
  | _ => true
  end.

Definition convertProperty (kv : string * JSValue) : string * JSValue :=
  (fst kv, convertNullToUndefined (snd kv)).

(** Induction on a value with the hypothesis for every item of an array and
    every property value of an object. *)
Section JSValueInduction.

Variable P : JSValue -> Prop.
Hypothesis HNull : P JNull.
Hypothesis HUndefined : P JUndefined.
Hypothesis HBoolean : forall b, P (JBoolean b).
Hypothesis HNumber : forall n, P (JNumber n).
Hypothesis HString : forall s, P (JString s).
Hypothesis HArray : forall items, Forall P items -> P (JArray items).
Hypothesis HObject :
  forall properties,
    Forall (fun kv => P (snd kv)) properties -> P (JObject properties).

Fixpoint JSValue_induction (v : JSValue) : P v :=
  match v with
  | JNull => HNull
  | JUndefined => HUndefined
  | JBoolean b => HBoolean b
  | JNumber n => HNumber n
  | JString s => HString s
  | JArray items =>
      HArray items
        ((fix each (l : list JSValue) : Forall P l :=
            match l with
            | [] => Forall_nil P
            | x :: rest => Forall_cons x (JSValue_induction x) (each rest)
            end) items)
  | JObject properties =>
      HObject properties
        ((fix each (l : list (string * JSValue))
            : Forall (fun kv => P (snd kv)) l :=
            match l with
            | [] => Forall_nil _
            | kv :: rest =>
                Forall_cons kv (JSValue_induction (snd kv)) (each rest)
            end) properties)
  end.

End JSValueInduction.

(** ** The reasons, part by part *)

Definition rangeReason (toString : number -> string) (label : string)
    (preference : option NumericPreference) (actualValue : option number)
  : list string :=
  match preference, actualValue with
  | Some p, Some v =>
      match min p, max p with
      | Some mn, Some mx =>
          if (mn <=? v) && (v <=? mx)
          then [(label ++ toString v ++ " is within preferred range "
                 ++ toString mn ++ "-" ++ toString mx)%string]
          else []
      | _, _ => []
      end
  | _, _ => []
  end.

Definition wormReason (preference actualValue : option bool) : list string :=
  match preference, actualValue with
  | Some false, Some false => ["Worm-free as preferred"%string]
  | _, _ => []
  end.

Definition booleanReason (yes no : string)
    (preference actualValue : option bool) : list string :=
  match preference, actualValue with
  | Some p, Some a => if Bool.eqb a p then [if p then yes else no] else []
  | _, _ => []
  end.

Definition shineReason (preference : option EnumPreference)
    (actualValue : option string) : list string :=
  match preference, actualValue with
  | Some p, Some shine =>
      if truthy p && negb (String.eqb shine "")
      then
        if Array_includes (match p with Many l => l | Single s => [s] end)
                          shine
        then [("Shine factor (" ++ shine ++ ") matches preference")%string]
        else []
      else []
  | _, _ => []
  end.

Definition scoreLine (toString : number -> string) (m : Match) : string :=
  (toString (mutualScore m) ++ "% mutual compatibility score")%string.

(** ** Order and identity of [spec_float] values *)

(** A key whose lexicographic order is the order of [SFcompare] on numbers
    that are not NaN: the class (infinities, signs, zero), then exponent and
    mantissa, negated for negative numbers. *)
Definition orderKey (x : spec_float) : Z * Z * Z :=
  match x with
  | S754_zero _ | S754_nan => (0, 0, 0)%Z
  | S754_infinity s => (if s then -2 else 2, 0, 0)%Z
  | S754_finite s m e =>
      if s then (-1, - e, - Zpos m)%Z else (1, e, Zpos m)%Z
  end.

Definition keyLe (a b : Z * Z * Z) : Prop :=
  let '(a1, a2, a3) := a in
  let '(b1, b2, b3) := b in
  (a1 < b1 \/ (a1 = b1 /\ (a2 < b2 \/ (a2 = b2 /\ a3 <= b3))))%Z.

(** Identity of two [spec_float] values, decided. *)
Definition spec_float_eqb (x y : spec_float) : bool :=
  match x, y with
  | S754_zero a, S754_zero b | S754_infinity a, S754_infinity b =>
      Bool.eqb a b
  | S754_nan, S754_nan => true
  | S754_finite a m e, S754_finite b n f =>
      Bool.eqb a b && Pos.eqb m n && Z.eqb e f
  | _, _ => false
  end.

Definition sameNumber (x y : number) : bool :=
  spec_float_eqb (Prim2SF x) (Prim2SF y).

Fixpoint distinct (l : list number) : list number :=
  match l with
  | [] => []
  | x :: rest =>
      if existsb (sameNumber x) rest then distinct rest
      else x :: distinct rest
  end.

(** ** The totals that boolean and enum preferences can reach *)

(** What a boolean preference can do to the running total, and what the
    [shineFactor] preference can. *)
Definition afterBoolean (totals : list number) : list number :=
  distinct (flat_map (fun x => [x; x + 0; x + 15; x + -25]) totals).

Definition afterEnum (totals : list number) : list number :=
  distinct (flat_map (fun x => [x; x + 0; x + 12; x + -15]) totals).

(** The directional scores that the boolean and [shineFactor] preferences
    alone can produce. *)
Definition attributeOnlyScores : list number :=
  Eval vm_compute in
    distinct
      (map (fun x => Math_max 0 (Math_min 100 x))
           (afterEnum
              (afterBoolean
                 (afterBoolean (afterBoolean (afterBoolean [50])))))).

(** ** More sample entities *)

(** Wants a stem, no worm and some shine; no numeric preference. *)
Definition choosy : FruitPreferences.t :=
  FruitPreferences.mk None None (Some true) None (Some false)
    (Some (Many ["shiny"; "extraShiny"]%string)) None.

(** The payload a handler passes through [convertNullToUndefined]: a new
    orange with an unknown size and without worm preference. *)
Definition orangeData : JSValue :=
  JObject
    [("type", JString "orange");
     ("attributes",
      JObject [("size", JNull); ("weight", JNumber 180);
               ("hasStem", JBoolean true); ("shineFactor", JNull)]);
     ("preferences",
      JObject [("hasWorm", JBoolean false);
               ("shineFactor", JArray [JString "shiny"; JNull])])]%string.

(** ** The built-ins on sample values *)

(** [Math.round] on halves, near halves and signed zeros. *)
Example Math_round_examples :
  map Math_round [2.5; -2.5; -0.5; 0.25; 834.5; 3.5; -3.75; 0x1p+60; nan]
  = [3; -2; neg_zero; 0; 835; 4; -4; 0x1p+60; nan].
Proof. reflexivity. Qed.

Example Math_round_below_half :
  Math_round 0x1.fffffffffffffp-2 = 0.
Proof. reflexivity. Qed.

Example Math_max_min_examples :
  [Math_max 0 neg_zero; Math_max neg_zero 0; Math_min 0 neg_zero;
   Math_min neg_zero 0; Math_max 0 nan; Math_min 100 nan;
   Math_max 0 (Math_min 100 130); Math_max 0 (Math_min 100 (-15))]
  = [0; 0; neg_zero; neg_zero; nan; nan; 100; 0].
Proof. reflexivity. Qed.

(** ** The scenarios of the repository's tests *)

Example test_no_preferences :
  calculateCompatibilityScore appleNoPreferences orangePerfectMatch = 50.
Proof. reflexivity. Qed.

Example test_good_match :
  calculateCompatibilityScore appleWithPreferences orangeGoodMatch = 98.25 /\
  (60 <? calculateCompatibilityScore appleWithPreferences orangeGoodMatch)
  = true.
Proof. split; reflexivity. Qed.

Example test_poor_match :
  calculateCompatibilityScore appleWithPreferences orangePoorMatch = 0 /\
  (calculateCompatibilityScore appleWithPreferences orangePoorMatch <? 40)
  = true.
Proof. split; reflexivity. Qed.

Example test_null_attributes_are_neutral :
  calculateCompatibilityScore appleWithNullPrefs orangeWithNulls = 50.
Proof. reflexivity. Qed.

Example test_bidirectional :
  calculateCompatibilityScore orangeGoodMatch appleWithPreferences = 80 /\
  Math_round (Math_sqrt (98.25 * 80) * 10) = 887 /\
  calculateMutualScore appleWithPreferences orangeGoodMatch = 887 / 10 /\
  in_range (calculateMutualScore appleWithPreferences orangeGoodMatch) = true.
Proof. repeat split; reflexivity. Qed.

Example test_returns_sorted_results :
  let candidates := [orangePoorMatch; orangeGoodMatch; orangePerfectMatch] in
  map fruitId (findTopMatches appleWithPreferences candidates 3)
  = ["fruits:orange2"; "fruits:orange1"; "fruits:orange3"]%string /\
  map mutualScore (findTopMatches appleWithPreferences candidates 3)
  = [887 / 10; 696 / 10; 0] /\
  descending (map mutualScore
                (findTopMatches appleWithPreferences candidates 3)) = true.
Proof. vm_compute. repeat split. Qed.

Example test_limits_results :
  let candidates := [orangePoorMatch; orangeGoodMatch; orangePerfectMatch] in
  map fruitId (findTopMatches appleWithPreferences candidates 2)
  = ["fruits:orange2"; "fruits:orange1"]%string /\
  List.length (findTopMatches_default appleWithPreferences candidates) = 3%nat /\
  findTopMatches appleWithPreferences [] 5 = [].
Proof. vm_compute. repeat split. Qed.

(** ** Facts about binary64 numbers *)

Lemma SFcompare_refl (x : spec_float) :
  x <> S754_nan -> SFcompare x x = Some Eq.
Proof.
  destruct x as [s | s | | s m e]; simpl; intros H;
    try destruct s; try reflexivity; try congruence;
    rewrite Z.compare_refl, Pos.compare_cont_refl; reflexivity.
Qed.

Lemma Prim2SF_nan : Prim2SF nan = S754_nan.
Proof. reflexivity. Qed.

Lemma Prim2SF_one : Prim2SF 1 = S754_finite false 4503599627370496 (-52).
Proof. reflexivity. Qed.

Lemma Prim2SF_two : Prim2SF 2 = S754_finite false 4503599627370496 (-51).
Proof. reflexivity. Qed.

Lemma Prim2SF_five : Prim2SF 5 = S754_finite false 5629499534213120 (-50).
Proof. reflexivity. Qed.

Lemma is_nan_spec (x : number) :
  is_nan x = true <-> Prim2SF x = S754_nan.
Proof.
  unfold is_nan. rewrite eqb_spec. unfold SFeqb. split.
  - intros H. destruct (Prim2SF x) eqn:E; try reflexivity;
      rewrite SFcompare_refl in H by congruence; discriminate.
  - intros ->. reflexivity.
Qed.

Lemma is_nan_eq (x : number) : is_nan x = true -> x = nan.
Proof.
  intros H. apply Prim2SF_inj. rewrite Prim2SF_nan.
  now apply is_nan_spec.
Qed.

Lemma not_nan_spec (x : number) :
  is_nan x = false <-> Prim2SF x <> S754_nan.
Proof.
  rewrite <- is_nan_spec. destruct (is_nan x); split; congruence.
Qed.

Lemma ltb_irrefl (x : number) : (x <? x) = false.
Proof.
  rewrite ltb_spec. unfold SFltb.
  destruct (Prim2SF x) eqn:E; try reflexivity;
    rewrite SFcompare_refl by congruence; reflexivity.
Qed.

Lemma add_nan_l (x : number) : nan + x = nan.
Proof.
  apply Prim2SF_inj. rewrite add_spec, Prim2SF_nan. reflexivity.
Qed.

Lemma add_nan_r (x : number) : x + nan = nan.
Proof.
  apply Prim2SF_inj. rewrite add_spec, Prim2SF_nan.
  destruct (Prim2SF x); reflexivity.
Qed.

Lemma mul_comm (x y : number) : x * y = y * x.
Proof.
  apply Prim2SF_inj. rewrite !mul_spec.
  destruct (Prim2SF x) as [sx | sx | | sx mx ex],
           (Prim2SF y) as [sy | sy | | sy my ey];
    simpl; try reflexivity; try (now rewrite xorb_comm).
  unfold SF64mul, SFmul.
  now rewrite xorb_comm, Pos.mul_comm, Z.add_comm.
Qed.

Lemma zero_cases (x : number) (b : bool) :
  Prim2SF x = S754_zero b -> x = (if b then neg_zero else zero).
Proof.
  intros H. apply Prim2SF_inj. rewrite H. now destruct b.
Qed.

Lemma infinity_cases (x : number) (b : bool) :
  Prim2SF x = S754_infinity b ->
  x = (if b then neg_infinity else infinity).
Proof.
  intros H. apply Prim2SF_inj. rewrite H. now destruct b.
Qed.

Lemma is_infinity_spec (x : number) :
  is_infinity x = true <-> exists b, Prim2SF x = S754_infinity b.
Proof.
  unfold is_infinity. rewrite eqb_spec, abs_spec. split.
  - destruct (Prim2SF x) as [s | s | | s m e]; intros H;
      try discriminate H. now exists s.
  - intros [b ->]. reflexivity.
Qed.

(** A finite number is a zero or [(-1)^s * m * 2^e]. *)
Lemma is_finite_spec (x : number) :
  is_finite x = true <->
  (exists b, Prim2SF x = S754_zero b) \/
  (exists s m e, Prim2SF x = S754_finite s m e).
Proof.
  unfold is_finite. rewrite negb_true_iff, orb_false_iff.
  rewrite not_nan_spec. split.
  - intros [Hn Hi]. destruct (Prim2SF x) as [s | s | | s m e] eqn:E.
    + left. now exists s.
    + assert (is_infinity x = true) by (apply is_infinity_spec; eauto).
      congruence.
    + congruence.
    + right. now exists s, m, e.
  - intros H. split.
    + destruct H as [[b ->] | [s [m [e ->]]]]; discriminate.
    + destruct (is_infinity x) eqn:E; [| reflexivity].
      apply is_infinity_spec in E. destruct E as [b E].
      destruct H as [[b' H] | [s [m [e H]]]]; congruence.
Qed.

Lemma not_finite_cases (m : number) :
  is_finite m = false -> m = nan \/ m = infinity \/ m = neg_infinity.
Proof.
  intros H. destruct (Prim2SF m) as [b | b | | s p e] eqn:E.
  - assert (is_finite m = true) by (apply is_finite_spec; eauto). congruence.
  - right. apply infinity_cases in E. destruct b; auto.
  - left. now apply Prim2SF_inj.
  - assert (is_finite m = true)
      by (apply is_finite_spec; right; eauto). congruence.
Qed.

Lemma mul_zero_l (b : number) :
  Prim2SF b = S754_zero false \/
  (exists m e, Prim2SF b = S754_finite false m e) ->
  0 * b = 0.
Proof.
  intros H. apply Prim2SF_inj. rewrite mul_spec.
  destruct H as [-> | [m [e ->]]]; reflexivity.
Qed.

Lemma zero_div (h : number) :
  is_nan h = false -> is_zero h = false -> 0 / h = 0 \/ 0 / h = neg_zero.
Proof.
  intros N Z. apply not_nan_spec in N. unfold is_zero in Z.
  rewrite eqb_spec in Z.
  assert (exists b, Prim2SF (0 / h) = S754_zero b) as [b E].
  { rewrite div_spec.
    destruct (Prim2SF h) as [s | s | | s m e]; try congruence.
    - destruct s; discriminate Z.
    - now eexists.
    - now eexists. }
  apply zero_cases in E. destruct b; auto.
Qed.

Lemma shl_align_same (m : positive) (e : Z) :
  shl_align m e e = (m, e).
Proof. unfold shl_align. now rewrite Z.sub_diag. Qed.

(** [x - x] is [+0] for every finite [x]. *)
Lemma sub_diag (x : number) : is_finite x = true -> x - x = 0.
Proof.
  intros H. apply Prim2SF_inj. rewrite sub_spec.
  apply is_finite_spec in H.
  destruct H as [[b ->] | [s [m [e ->]]]].
  - now destruct b.
  - unfold SF64sub, SFsub. rewrite Z.min_id, shl_align_same. simpl fst.
    now rewrite Z.sub_diag.
Qed.

(** ** Doubling and halving a binary64 number *)

Ltac fexp_lia := unfold fexp, SpecFloat.emin, prec, emax in *; lia.

Lemma valid_finite_shape (s : bool) (m : positive) (e : Z) :
  valid_binary (S754_finite s m e) = true ->
  fexp prec emax (Zpos (digits2_pos m) + e) = e /\ (e <= 971)%Z.
Proof.
  unfold valid_binary, bounded, canonical_mantissa, prec, emax.
  rewrite andb_true_iff, Z.eqb_eq, Z.leb_le. tauto.
Qed.

(** Rounding a mantissa that is already canonical for its exponent. *)
Lemma binary_round_aux_canonical (s : bool) (m : positive) (e : Z) :
  fexp prec emax (Zpos (digits2_pos m) + e) = e ->
  binary_round_aux prec emax s (Zpos m) e loc_Exact
  = if (e <=? emax - prec)%Z then S754_finite s m e else S754_infinity s.
Proof.
  intros C. unfold binary_round_aux, shr_fexp.
  cbv [Zdigits2 shr_record_of_loc]. rewrite C, Z.sub_diag.
  cbv [shr loc_of_shr_record round_nearest_even shr_m shr_r shr_s Zdigits2
         shr_record_of_loc].
  rewrite C, Z.sub_diag. reflexivity.
Qed.

(** Rounding an even mantissa that has one bit too many. *)
Lemma binary_round_aux_even (s : bool) (m : positive) (e : Z) :
  fexp prec emax (Zpos (digits2_pos m) + (e + 1)) = (e + 1)%Z ->
  binary_round_aux prec emax s (Zpos m~0) e loc_Exact
  = if (e + 1 <=? emax - prec)%Z then S754_finite s m (e + 1)
    else S754_infinity s.
Proof.
  intros C. unfold binary_round_aux, shr_fexp.
  cbv [Zdigits2 shr_record_of_loc digits2_pos]. fold digits2_pos.
  rewrite Pos2Z.inj_succ.
  replace (Z.succ (Z.pos (digits2_pos m)) + e)%Z
    with (Zpos (digits2_pos m) + (e + 1))%Z by lia.
  rewrite C. replace (e + 1 - e)%Z with 1%Z by lia.
  cbv [shr iter_pos shr_1 loc_of_shr_record round_nearest_even shr_m shr_r
         shr_s Zdigits2 shr_record_of_loc orb].
  rewrite C, Z.sub_diag. reflexivity.
Qed.

Lemma double_finite (s : bool) (m : positive) (e : Z) :
  valid_binary (S754_finite s m e) = true ->
  SF64add (S754_finite s m e) (S754_finite s m e) =
  if (Zpos (digits2_pos m) =? 53)%Z
  then (if (e + 1 <=? 971)%Z then S754_finite s m (e + 1) else S754_infinity s)
  else S754_finite s (m~0) e.
Proof.
  intros V. apply valid_finite_shape in V. destruct V as [C Le].
  unfold SF64add, SFadd. rewrite Z.min_id, shl_align_same. cbv [fst].
  replace (cond_Zopp s (Zpos m) + cond_Zopp s (Zpos m))%Z
    with (cond_Zopp s (Zpos m~0))
    by (destruct s; simpl; now rewrite Pos.add_diag).
  assert (BN : binary_normalize prec emax (cond_Zopp s (Z.pos m~0)) e false
               = binary_round prec emax s (m~0) e) by now destruct s.
  rewrite BN. unfold binary_round. cbv [digits2_pos]. fold digits2_pos.
  rewrite Pos2Z.inj_succ.
  destruct (Z.eqb_spec (Zpos (digits2_pos m)) 53) as [D | D].
  - replace (fexp prec emax (Z.succ (Zpos (digits2_pos m)) + e))
      with (e + 1)%Z by fexp_lia.
    unfold shl_align. replace (e + 1 - e)%Z with 1%Z by lia. cbv iota.
    rewrite binary_round_aux_even by fexp_lia. reflexivity.
  - replace (fexp prec emax (Z.succ (Zpos (digits2_pos m)) + e))
      with e by fexp_lia.
    rewrite shl_align_same.
    rewrite binary_round_aux_canonical.
    + replace (e <=? emax - prec)%Z with true; [reflexivity |].
      symmetry. apply Z.leb_le. unfold emax, prec. lia.
    + cbv [digits2_pos]. fold digits2_pos. rewrite Pos2Z.inj_succ. fexp_lia.
Qed.

Lemma div_eucl_mul (q : Z) (d : positive) :
  Z.div_eucl (q * Zpos d) (Zpos d) = (q, 0%Z).
Proof.
  pose proof (Z.div_mul q (Zpos d) ltac:(lia)) as Hq.
  pose proof (Z.mod_mul q (Zpos d) ltac:(lia)) as Hr.
  unfold Z.div, Z.modulo in *. destruct Z.div_eucl as [q' r']. now subst.
Qed.

(** The division core on an exact quotient. *)
Lemma SFdiv_core_exact (m1 : positive) (e1 : Z) (m2 : positive) (e2 : Z)
    (e' : Z) (k q : positive) :
  Z.min (fexp prec emax (Zpos (digits2_pos m1) + e1
                         - (Zpos (digits2_pos m2) + e2))) (e1 - e2) = e' ->
  (e1 - e2 - e' = Zpos k)%Z ->
  (Zpos m1 * 2 ^ Zpos k = Zpos q * Zpos m2)%Z ->
  SFdiv_core_binary prec emax (Zpos m1) e1 (Zpos m2) e2
  = (Zpos q, e', loc_Exact).
Proof.
  intros He Hk Hq. unfold SFdiv_core_binary. cbv [Zdigits2].
  rewrite He, Hk. rewrite Z.shiftl_mul_pow2 by lia.
  rewrite Hq, div_eucl_mul.
  unfold new_location, new_location_even, new_location_odd.
  now destruct (Z.even (Zpos m2)).
Qed.

Lemma halve_finite (s : bool) (m : positive) (e : Z) :
  valid_binary (S754_finite s m e) = true ->
  SF64div (if (Zpos (digits2_pos m) =? 53)%Z then S754_finite s m (e + 1)
           else S754_finite s (m~0) e)
          (S754_finite false 4503599627370496 (-51))
  = S754_finite s m e.
Proof.
  intros V. apply valid_finite_shape in V. destruct V as [C Le].
  assert (Hle : (e <=? emax - prec)%Z = true)
    by (apply Z.leb_le; unfold emax, prec; lia).
  assert (D2 : Zpos (digits2_pos 4503599627370496) = 53%Z) by reflexivity.
  destruct (Z.eqb_spec (Zpos (digits2_pos m)) 53) as [D | D];
    unfold SF64div, SFdiv; rewrite xorb_false_r.
  - destruct (Z.eq_dec e (-1074)) as [-> | Ne].
    + rewrite (SFdiv_core_exact m (-1074 + 1) _ (-51) (-1074) 52 m).
      * rewrite binary_round_aux_canonical by exact C. now rewrite Hle.
      * rewrite D, D2. reflexivity.
      * reflexivity.
      * reflexivity.
    + rewrite (SFdiv_core_exact m (e + 1) _ (-51) (e - 1) 53 (m~0)).
      * rewrite binary_round_aux_even; replace (e - 1 + 1)%Z with e by lia;
          [now rewrite Hle | exact C].
      * rewrite D, D2. fexp_lia.
      * lia.
      * change (2 ^ 53)%Z with (2 * 4503599627370496)%Z. lia.
  - assert (e = -1074)%Z as -> by fexp_lia.
    rewrite (SFdiv_core_exact (m~0) (-1074) _ (-51) (-1074) 51 m).
    + rewrite binary_round_aux_canonical by exact C. now rewrite Hle.
    + rewrite D2. cbv [digits2_pos]. fold digits2_pos.
      rewrite Pos2Z.inj_succ. fexp_lia.
    + reflexivity.
    + change (2 ^ 51)%Z with 2251799813685248%Z. lia.
Qed.

(** Halving the double of [m] gives [m] back unless [m + m] overflows. *)
Lemma half_of_double (m : number) :
  is_finite (m + m) = true -> (m + m) / 2 = m.
Proof.
  intros F. apply Prim2SF_inj. rewrite div_spec, Prim2SF_two.
  apply is_finite_spec in F. rewrite add_spec in *.
  pose proof (Prim2SF_valid m) as V.
  destruct (Prim2SF m) as [b | b | | s p e] eqn:E.
  - now destruct b.
  - destruct F as [[b' F] | [s [p [e F]]]]; destruct b; discriminate.
  - destruct F as [[b' F] | [s [p [e F]]]]; discriminate.
  - rewrite double_finite in * by exact V.
    pose proof (halve_finite s p e V) as H.
    destruct (Zpos (digits2_pos p) =? 53)%Z; [| exact H].
    destruct (e + 1 <=? 971)%Z; [exact H |].
    destruct F as [[b' F] | [s' [p' [e' F]]]]; discriminate.
Qed.

(** A finite number whose double is not finite doubles to the infinity of
    its sign. *)
Lemma double_overflow (m : number) :
  is_finite m = true -> is_finite (m + m) = false ->
  exists s p e, Prim2SF m = S754_finite s p e /\
                Prim2SF (m + m) = S754_infinity s.
Proof.
  intros F O. pose proof (Prim2SF_valid m) as V.
  apply is_finite_spec in F. destruct F as [[b Z] | [s [p [e Z]]]].
  - apply zero_cases in Z. subst m. destruct b; discriminate O.
  - exists s, p, e. split; [exact Z |].
    assert (N : is_finite (m + m) = true -> False) by congruence.
    rewrite Z in V. rewrite is_finite_spec in N.
    rewrite add_spec, Z, double_finite in * by exact V.
    destruct (Zpos (digits2_pos p) =? 53)%Z; [| exfalso; eauto 6].
    destruct (e + 1 <=? 971)%Z; [exfalso; eauto 6 | reflexivity].
Qed.

Lemma is_finite_double (m : number) :
  is_finite (m + m) = true -> is_finite m = true.
Proof.
  intros H. destruct (is_finite m) eqn:E; [reflexivity |].
  destruct (not_finite_cases m E) as [-> | [-> | ->]]; exact H.
Qed.

(** ** Rounding keeps the sign and the order *)

#[local] Open Scope Z_scope.

Lemma shr_1_m (r : shr_record) :
  0 <= shr_m r -> shr_m (shr_1 r) = shr_m r / 2.
Proof.
  destruct r as [m b s]. simpl. intros H.
  destruct m as [| p | p]; [reflexivity | | lia].
  destruct p as [p | p |]; simpl shr_m.
  - apply Z.div_unique with (r := 1); lia.
  - apply Z.div_unique with (r := 0); lia.
  - reflexivity.
Qed.

Lemma pow2_xO (k : positive) : 2 ^ Zpos k~0 = 2 ^ Zpos k * 2 ^ Zpos k.
Proof. rewrite Pos2Z.inj_xO, <- Z.pow_add_r by lia. f_equal. lia. Qed.

Lemma pow2_xI (k : positive) : 2 ^ Zpos k~1 = 2 * (2 ^ Zpos k * 2 ^ Zpos k).
Proof.
  rewrite Pos2Z.inj_xI.
  replace (2 * Zpos k + 1) with (1 + Zpos k + Zpos k) by lia.
  rewrite !Z.pow_add_r by lia. rewrite Z.pow_1_r. ring.
Qed.

Lemma iter_shr_1_m (k : positive) :
  forall r, 0 <= shr_m r ->
            shr_m (iter_pos shr_1 k r) = shr_m r / 2 ^ Zpos k.
Proof.
  assert (N : forall r, 0 <= shr_m r -> 0 <= shr_m (shr_1 r)).
  { intros r H. rewrite shr_1_m by exact H. apply Z.div_pos; lia. }
  induction k as [k IH | k IH |]; intros r H; simpl iter_pos.
  - assert (P : 0 < 2 ^ Zpos k) by (apply Z.pow_pos_nonneg; lia).
    assert (H1 := N r H).
    assert (H2 : 0 <= shr_m (iter_pos shr_1 k (shr_1 r))).
    { rewrite IH by exact H1. apply Z.div_pos; lia. }
    rewrite IH, IH, shr_1_m by assumption.
    rewrite !Z.div_div by lia. now rewrite pow2_xI, Z.mul_assoc.
  - assert (P : 0 < 2 ^ Zpos k) by (apply Z.pow_pos_nonneg; lia).
    assert (H2 : 0 <= shr_m (iter_pos shr_1 k r)).
    { rewrite IH by exact H. apply Z.div_pos; lia. }
    rewrite IH, IH by assumption.
    rewrite !Z.div_div by lia. now rewrite pow2_xO.
  - rewrite shr_1_m by exact H. reflexivity.
Qed.

Lemma digits2_bounds (p : positive) :
  2 ^ (Zpos (digits2_pos p) - 1) <= Zpos p < 2 ^ Zpos (digits2_pos p).
Proof.
  induction p as [p IH | p IH |]; simpl digits2_pos;
    rewrite ?Pos2Z.inj_succ.
  - replace (Z.succ (Zpos (digits2_pos p)) - 1)
      with (Z.succ (Zpos (digits2_pos p) - 1)) by lia.
    rewrite !Z.pow_succ_r by lia. lia.
  - replace (Z.succ (Zpos (digits2_pos p)) - 1)
      with (Z.succ (Zpos (digits2_pos p) - 1)) by lia.
    rewrite !Z.pow_succ_r by lia. lia.
  - simpl. lia.
Qed.

(** A mantissa of at least [2^k] has more than [k] digits. *)
Lemma digits2_lower (p : positive) (k : Z) :
  0 <= k -> 2 ^ k <= Zpos p -> k < Zpos (digits2_pos p).
Proof.
  intros Hk H. destruct (digits2_bounds p) as [_ U].
  apply (Z.pow_lt_mono_r_iff 2); lia.
Qed.

Lemma digits2_mono (p q : positive) :
  Zpos p <= Zpos q -> Zpos (digits2_pos p) <= Zpos (digits2_pos q).
Proof.
  intros H. destruct (digits2_bounds p) as [L _].
  assert (Zpos (digits2_pos p) - 1 < Zpos (digits2_pos q)); [| lia].
  apply digits2_lower; lia.
Qed.

(** The mantissa that [shr_fexp] leaves is positive, and not smaller in
    magnitude class, when the value is not below the smallest subnormal. *)
Lemma shr_fexp_positive (p : positive) (e : Z) (l : location) :
  emin < Zpos (digits2_pos p) + e ->
  exists p', shr_m (fst (shr_fexp prec emax (Zpos p) e l)) = Zpos p' /\
             Zpos (digits2_pos p) + e
             <= Zpos (digits2_pos p') + snd (shr_fexp prec emax (Zpos p) e l).
Proof.
  intros H. unfold shr_fexp. cbv [Zdigits2].
  set (D := Zpos (digits2_pos p)) in *.
  destruct (fexp prec emax (D + e) - e) as [| k | k] eqn:N; cbv [shr fst snd].
  - exists p. split; [now destruct l as [| []] | lia].
  - assert (0 <= shr_m (shr_record_of_loc (Zpos p) l))
      by (now destruct l as [| []]).
    rewrite iter_shr_1_m by assumption.
    replace (shr_m (shr_record_of_loc (Zpos p) l)) with (Zpos p)
      by (now destruct l as [| []]).
    assert (K : Zpos k < D) by fexp_lia.
    destruct (digits2_bounds p) as [L U]. fold D in L, U.
    assert (P : 0 < 2 ^ Zpos k) by (apply Z.pow_pos_nonneg; lia).
    assert (Q : 2 ^ (D - 1 - Zpos k) <= Zpos p / 2 ^ Zpos k).
    { apply Z.div_le_lower_bound; [exact P |].
      rewrite <- Z.pow_add_r by lia.
      now replace (Zpos k + (D - 1 - Zpos k)) with (D - 1) by lia. }
    assert (Q0 : 0 < 2 ^ (D - 1 - Zpos k)) by (apply Z.pow_pos_nonneg; lia).
    destruct (Zpos p / 2 ^ Zpos k) as [| p' | p'] eqn:E; try lia.
    exists p'. split; [reflexivity |].
    pose proof (digits2_lower p' (D - 1 - Zpos k) ltac:(lia) Q). lia.
  - exists p. split; [now destruct l as [| []] | lia].
Qed.

(** [shr_fexp] on a positive mantissa: the mantissa stays positive, the
    exponent becomes the larger of [e] and the canonical one, and no
    magnitude is lost. *)
Lemma shr_fexp_exponent (p : positive) (e : Z) (l : location) :
  emin < Zpos (digits2_pos p) + e ->
  exists p', shr_m (fst (shr_fexp prec emax (Zpos p) e l)) = Zpos p' /\
             snd (shr_fexp prec emax (Zpos p) e l)
             = Z.max e (fexp prec emax (Zpos (digits2_pos p) + e)) /\
             Zpos (digits2_pos p) + e
             <= Zpos (digits2_pos p') + snd (shr_fexp prec emax (Zpos p) e l).
Proof.
  intros H. destruct (shr_fexp_positive p e l H) as [p' [E D]].
  exists p'. split; [exact E | split; [| exact D]].
  unfold shr_fexp, shr. cbv [Zdigits2].
  destruct (fexp prec emax (Zpos (digits2_pos p) + e) - e) eqn:N;
    cbv [snd]; lia.
Qed.

Lemma round_nearest_even_positive (p : positive) (l : location) :
  exists p', round_nearest_even (Zpos p) l = Zpos p' /\ Zpos p <= Zpos p'.
Proof.
  destruct l as [| []]; cbv [round_nearest_even].
  - exists p. split; [reflexivity | lia].
  - destruct (Z.even (Zpos p)).
    + exists p. split; [reflexivity | lia].
    + exists (p + 1)%positive. split; [reflexivity | lia].
  - exists p. split; [reflexivity | lia].
  - exists (p + 1)%positive. split; [reflexivity | lia].
Qed.

(** Rounding a positive mantissa whose value is not below the smallest
    subnormal gives a non-zero number of the same sign. *)
Lemma binary_round_aux_strictly (s : bool) (p : positive) (e : Z)
    (l : location) :
  emin < Zpos (digits2_pos p) + e ->
  strictly s (binary_round_aux prec emax s (Zpos p) e l).
Proof.
  intros H. unfold binary_round_aux.
  destruct (shr_fexp_positive p e l H) as [p1 [E1 D1]].
  destruct (shr_fexp prec emax (Zpos p) e l) as [mrs' e'].
  cbv [fst snd] in E1, D1.
  rewrite E1.
  destruct (round_nearest_even_positive p1 (loc_of_shr_record mrs'))
    as [p2 [E2 L2]].
  rewrite E2. pose proof (digits2_mono p1 p2 L2) as M.
  destruct (shr_fexp_positive p2 e' loc_Exact ltac:(lia)) as [p3 [E3 _]].
  destruct (shr_fexp prec emax (Zpos p2) e' loc_Exact) as [mrs'' e''].
  cbv [fst] in E3. rewrite E3.
  now destruct (e'' <=? emax - prec).
Qed.

Lemma iter_xO_Z (m d : positive) :
  Zpos (Pos.iter xO m d) = Zpos m * 2 ^ Zpos d.
Proof.
  induction d as [| d IH] using Pos.peano_ind.
  - simpl. lia.
  - rewrite Pos.iter_succ, Pos2Z.inj_xO, IH, Pos2Z.inj_succ, Z.pow_succ_r
      by lia.
    ring.
Qed.

Lemma iter_xO_digits (m d : positive) :
  Zpos (digits2_pos (Pos.iter xO m d)) = Zpos (digits2_pos m) + Zpos d.
Proof.
  induction d as [| d IH] using Pos.peano_ind.
  - simpl. lia.
  - rewrite Pos.iter_succ. simpl digits2_pos. rewrite Pos2Z.inj_succ, IH. lia.
Qed.

Lemma binary_round_strictly (s : bool) (p : positive) (e : Z) :
  emin < Zpos (digits2_pos p) + e ->
  strictly s (binary_round prec emax s p e).
Proof.
  intros H. unfold binary_round, shl_align.
  destruct (fexp prec emax (Zpos (digits2_pos p) + e) - e) as [| k | k] eqn:N;
    try (now apply binary_round_aux_strictly).
  apply binary_round_aux_strictly. rewrite iter_xO_digits.
  pose proof (Pos2Z.neg_is_neg k). lia.
Qed.

Lemma binary_normalize_sign (z e : Z) :
  emin <= e ->
  match Z.compare z 0 with
  | Gt => strictly false (binary_normalize prec emax z e false)
  | Lt => strictly true (binary_normalize prec emax z e false)
  | Eq => binary_normalize prec emax z e false = S754_zero false
  end.
Proof.
  intros H. destruct z as [| p | p]; simpl Z.compare; cbv [binary_normalize].
  - reflexivity.
  - apply binary_round_strictly. pose proof (Pos2Z.is_pos (digits2_pos p)). lia.
  - apply binary_round_strictly. pose proof (Pos2Z.is_pos (digits2_pos p)). lia.
Qed.

Lemma shl_align_fst (m : positive) (e ez : Z) :
  ez <= e -> Zpos (fst (shl_align m e ez)) = Zpos m * 2 ^ (e - ez).
Proof.
  intros H. unfold shl_align.
  destruct (ez - e) as [| d | d] eqn:E; cbv [fst].
  - replace (e - ez) with 0 by lia. simpl. lia.
  - lia.
  - rewrite iter_xO_Z. f_equal. f_equal. lia.
Qed.

(** What validity says about a finite binary64 number. *)
Lemma valid_finite_bounds (s : bool) (m : positive) (e : Z) :
  valid_binary (S754_finite s m e) = true ->
  -1074 <= e /\ Zpos m < 2 ^ 53 /\ (-1074 < e -> 2 ^ 52 <= Zpos m).
Proof.
  intros V. apply valid_finite_shape in V. destruct V as [C _].
  destruct (digits2_bounds m) as [L U].
  assert (D : Zpos (digits2_pos m) <= 53) by fexp_lia.
  split; [fexp_lia | split].
  - apply Z.lt_le_trans with (1 := U). apply Z.pow_le_mono_r; lia.
  - intros H. assert (Zpos (digits2_pos m) = 53) as D' by fexp_lia.
    rewrite D' in L. exact L.
Qed.

(** Comparing two finite numbers is comparing their aligned mantissas. *)
Lemma SFcompare_aligned (sx : bool) (mx : positive) (ex : Z)
    (sy : bool) (my : positive) (ey : Z) :
  valid_binary (S754_finite sx mx ex) = true ->
  valid_binary (S754_finite sy my ey) = true ->
  SFcompare (S754_finite sx mx ex) (S754_finite sy my ey)
  = Some (Z.compare (aligned (Z.min ex ey) sx mx ex)
                    (aligned (Z.min ex ey) sy my ey)).
Proof.
  intros Vx Vy.
  destruct (valid_finite_bounds _ _ _ Vx) as [Ex [Ux Lx]].
  destruct (valid_finite_bounds _ _ _ Vy) as [Ey [Uy Ly]].
  unfold aligned. rewrite !shl_align_fst by lia.
  assert (Hx : 0 < Zpos mx * 2 ^ (ex - Z.min ex ey)).
  { apply Z.mul_pos_pos; [lia | apply Z.pow_pos_nonneg; lia]. }
  assert (Hy : 0 < Zpos my * 2 ^ (ey - Z.min ex ey)).
  { apply Z.mul_pos_pos; [lia | apply Z.pow_pos_nonneg; lia]. }
  assert (Cases :
            (ex = ey /\ Zpos mx * 2 ^ (ex - Z.min ex ey) = Zpos mx /\
             Zpos my * 2 ^ (ey - Z.min ex ey) = Zpos my) \/
            (ex < ey /\ Zpos mx * 2 ^ (ex - Z.min ex ey)
                        < Zpos my * 2 ^ (ey - Z.min ex ey)) \/
            (ey < ex /\ Zpos my * 2 ^ (ey - Z.min ex ey)
                        < Zpos mx * 2 ^ (ex - Z.min ex ey))).
  { destruct (Z.lt_total ex ey) as [H | [H | H]].
    - right. left. split; [exact H |].
      rewrite Z.min_l by lia. rewrite Z.sub_diag, Z.mul_1_r.
      assert (2 ^ 1 <= 2 ^ (ey - ex)) by (apply Z.pow_le_mono_r; lia).
      specialize (Ly ltac:(lia)). change (2 ^ 53) with (2 ^ 52 * 2 ^ 1) in Ux.
      nia.
    - left. subst ey. rewrite Z.min_id, Z.sub_diag, !Z.mul_1_r. tauto.
    - right. right. split; [exact H |].
      rewrite Z.min_r by lia. rewrite Z.sub_diag, Z.mul_1_r.
      assert (2 ^ 1 <= 2 ^ (ex - ey)) by (apply Z.pow_le_mono_r; lia).
      specialize (Lx ltac:(lia)). change (2 ^ 53) with (2 ^ 52 * 2 ^ 1) in Uy.
      nia. }
  set (X := Zpos mx * 2 ^ (ex - Z.min ex ey)) in *.
  set (Y := Zpos my * 2 ^ (ey - Z.min ex ey)) in *.
  cbv [SFcompare]. f_equal.
  destruct sx, sy; cbv [cond_Zopp].
  - rewrite Z.compare_opp.
    destruct Cases as [[E [Ex' Ey']] | [[E L] | [E L]]].
    + subst ey. rewrite Z.compare_refl, Ex', Ey'.
      change (Pos.compare_cont Eq mx my) with (Pos.compare mx my).
      symmetry. apply (Pos.compare_antisym mx my).
    + apply Z.compare_lt_iff in E. rewrite E. symmetry.
      apply Z.compare_gt_iff. exact L.
    + apply Z.compare_gt_iff in E. rewrite E. symmetry.
      apply Z.compare_lt_iff. exact L.
  - symmetry. apply Z.compare_lt_iff. lia.
  - symmetry. apply Z.compare_gt_iff. lia.
  - destruct Cases as [[E [Ex' Ey']] | [[E L] | [E L]]].
    + subst ey. rewrite Z.compare_refl, Ex', Ey'. reflexivity.
    + apply Z.compare_lt_iff in E. rewrite E. symmetry.
      apply Z.compare_lt_iff. exact L.
    + apply Z.compare_gt_iff in E. rewrite E. symmetry.
      apply Z.compare_gt_iff. exact L.
Qed.

Lemma SFcompare_antisym (x y : spec_float) :
  valid_binary x = true -> valid_binary y = true ->
  SFcompare y x = option_map CompOpp (SFcompare x y).
Proof.
  intros Vx Vy.
  destruct x as [sx | sx | | sx mx ex]; destruct y as [sy | sy | | sy my ey];
    try reflexivity; try (now destruct sx); try (now destruct sy);
    try (now destruct sx, sy).
  rewrite !SFcompare_aligned by assumption. simpl option_map.
  now rewrite (Z.min_comm ey ex), Z.compare_antisym.
Qed.

Lemma strictly_positive_ltb (r : spec_float) :
  strictly false r -> SFltb (S754_zero false) r = true.
Proof. destruct r as [b | b | | b m e]; simpl; intros H; now subst. Qed.

Lemma strictly_negative_ltb (r : spec_float) :
  strictly true r -> SFltb (S754_zero false) r = false.
Proof. destruct r as [b | b | | b m e]; simpl; intros H; now subst. Qed.

(** The sign of a difference: [y - x] is positive exactly when [x < y]. *)
Lemma SFsub_positive (x y : spec_float) :
  valid_binary x = true -> valid_binary y = true ->
  x <> S754_nan -> y <> S754_nan ->
  SFltb (S754_zero false) (SF64sub y x) = SFltb x y.
Proof.
  intros Vx Vy Nx Ny.
  destruct x as [sx | sx | | sx mx ex]; try congruence;
    destruct y as [sy | sy | | sy my ey]; try congruence;
    try (now destruct sx, sy).
  unfold SFltb at 2. rewrite SFcompare_aligned by assumption.
  unfold SF64sub, SFsub. rewrite (Z.min_comm ey ex).
  fold (aligned (Z.min ex ey) sy my ey). fold (aligned (Z.min ex ey) sx mx ex).
  set (X := aligned (Z.min ex ey) sx mx ex).
  set (Y := aligned (Z.min ex ey) sy my ey).
  destruct (valid_finite_bounds _ _ _ Vx) as [Ex _].
  destruct (valid_finite_bounds _ _ _ Vy) as [Ey _].
  pose proof (binary_normalize_sign (Y - X) (Z.min ex ey)
                ltac:(unfold SpecFloat.emin, prec, emax; lia)) as S.
  destruct (Z.compare_spec (Y - X) 0) as [E | E | E].
  - rewrite S. replace (X ?= Y) with Eq
      by (symmetry; apply Z.compare_eq_iff; lia). reflexivity.
  - rewrite strictly_negative_ltb by exact S.
    replace (X ?= Y) with Gt by (symmetry; apply Z.compare_gt_iff; lia).
    reflexivity.
  - rewrite strictly_positive_ltb by exact S.
    replace (X ?= Y) with Lt by (symmetry; apply Z.compare_lt_iff; lia).
    reflexivity.
Qed.

Lemma SFsub_not_nan (x y : spec_float) :
  valid_binary x = true -> valid_binary y = true ->
  (forall s, x <> S754_infinity s) -> x <> S754_nan -> y <> S754_nan ->
  SF64sub x y <> S754_nan.
Proof.
  intros Vx Vy Ix Nx Ny.
  destruct x as [sx | sx | | sx mx ex]; try congruence;
    try (now elim (Ix sx));
    destruct y as [sy | sy | | sy my ey]; try congruence;
    try (now destruct sx, sy); try discriminate.
  unfold SF64sub, SFsub.
  destruct (valid_finite_bounds _ _ _ Vx) as [Ex _].
  destruct (valid_finite_bounds _ _ _ Vy) as [Ey _].
  match goal with
  | |- binary_normalize _ _ ?z ?e _ <> _ =>
      pose proof (binary_normalize_sign z e
                    ltac:(unfold SpecFloat.emin, prec, emax; lia)) as S;
      destruct (Z.compare z 0)
  end.
  - rewrite S. discriminate.
  - intros E. rewrite E in S. exact S.
  - intros E. rewrite E in S. exact S.
Qed.

(** Rounding a mantissa of at least 53 digits whose value is at least 1
    gives a number that is at least 1. *)
Lemma binary_round_aux_ge_one (p : positive) (e : Z) (l : location) :
  53 <= Zpos (digits2_pos p) -> 1 <= Zpos (digits2_pos p) + e ->
  SFleb (S754_finite false 4503599627370496 (-52))
        (binary_round_aux prec emax false (Zpos p) e l) = true.
Proof.
  intros D V. unfold binary_round_aux.
  destruct (shr_fexp_exponent p e l
              ltac:(unfold SpecFloat.emin, prec, emax; lia))
    as [p1 [E1 [X1 D1]]].
  destruct (shr_fexp prec emax (Zpos p) e l) as [mrs' e1].
  cbv [fst snd] in E1, X1, D1. rewrite E1.
  destruct (round_nearest_even_positive p1 (loc_of_shr_record mrs'))
    as [p2 [E2 L2]].
  rewrite E2. pose proof (digits2_mono p1 p2 L2) as M.
  assert (X1' : e1 = Zpos (digits2_pos p) + e - 53) by fexp_lia.
  destruct (shr_fexp_exponent p2 e1 loc_Exact
              ltac:(unfold SpecFloat.emin, prec, emax; lia))
    as [p3 [E3 [X3 D3]]].
  destruct (shr_fexp prec emax (Zpos p2) e1 loc_Exact) as [mrs'' e3].
  cbv [fst snd] in E3, X3, D3. rewrite E3.
  destruct (e3 <=? emax - prec); [| reflexivity].
  assert (G : -52 <= e3 /\ 53 <= Zpos (digits2_pos p3)) by fexp_lia.
  destruct G as [G3 G4].
  unfold SFleb, SFcompare.
  destruct (Z.compare_spec (-52) e3) as [Q | Q | Q]; try reflexivity; [| lia].
  destruct (digits2_bounds p3) as [B _].
  assert (2 ^ 52 <= 2 ^ (Zpos (digits2_pos p3) - 1))
    by (apply Z.pow_le_mono_r; lia).
  change (Pos.compare_cont Eq 4503599627370496 p3)
    with (Z.compare 4503599627370496 (Zpos p3)).
  change (2 ^ 52) with 4503599627370496 in *.
  destruct (Z.compare_spec 4503599627370496 (Zpos p3)); try reflexivity; lia.
Qed.

(** Dividing a number that is at least 5 by 5 gives at least 1. *)
Lemma SFdiv_five_ge_one (d : spec_float) :
  valid_binary d = true ->
  SFleb (S754_finite false 5629499534213120 (-50)) d = true ->
  SFleb (S754_finite false 4503599627370496 (-52))
        (SF64div d (S754_finite false 5629499534213120 (-50))) = true.
Proof.
  intros V H.
  destruct d as [s | s | | s md ed]; try discriminate H;
    try (destruct s; [discriminate H | reflexivity]).
  destruct s; [discriminate H |].
  unfold SFleb in H. rewrite SFcompare_aligned in H by (exact V || reflexivity).
  unfold aligned in H. cbv [cond_Zopp] in H.
  destruct (valid_finite_bounds _ _ _ V) as [Ed [U L]].
  destruct (valid_finite_shape _ _ _ V) as [C _].
  assert (E50 : -50 <= ed).
  { destruct (Z_lt_le_dec ed (-50)) as [Lt | Ge]; [exfalso | exact Ge].
    rewrite Z.min_r in H by lia. rewrite shl_align_same in H.
    rewrite shl_align_fst in H by lia. cbv [fst] in H.
    assert (2 ^ 1 <= 2 ^ (-50 - ed)) by (apply Z.pow_le_mono_r; lia).
    change (2 ^ 1) with 2 in *. change (2 ^ 53) with 9007199254740992 in U.
    destruct (Z.compare_spec (5629499534213120 * 2 ^ (-50 - ed)) (Zpos md));
      try discriminate H; nia. }
  specialize (L ltac:(lia)).
  rewrite Z.min_l in H by lia. rewrite shl_align_same in H.
  rewrite shl_align_fst in H by lia. cbv [fst] in H.
  assert (A : 5629499534213120 <= Zpos md * 2 ^ (ed - -50)).
  { destruct (Z.compare_spec 5629499534213120 (Zpos md * 2 ^ (ed - -50)));
      try discriminate H; lia. }
  assert (D : Zpos (digits2_pos md) = 53) by fexp_lia.
  unfold SF64div, SFdiv, SFdiv_core_binary. cbv [Zdigits2 xorb].
  rewrite D. change (Zpos (digits2_pos 5629499534213120)) with 53.
  replace (Z.min (fexp prec emax (53 + ed - (53 + -50))) (ed - -50))
    with (ed - 3) by fexp_lia.
  replace (ed - -50 - (ed - 3)) with 53 by lia.
  rewrite Z.shiftl_mul_pow2 by lia.
  change (2 ^ 53) with 9007199254740992 in *.
  change (2 ^ 52) with 4503599627370496 in *.
  pose proof (Z.div_le_lower_bound (Zpos md * 9007199254740992)
                5629499534213120 4503599627370496 ltac:(lia) ltac:(lia)) as Q.
  unfold Z.div in Q.
  destruct (Z.div_eucl (Zpos md * 9007199254740992) 5629499534213120)
    as [q r] eqn:DE.
  cbv [fst] in Q. destruct q as [| qp | qp]; try lia.
  apply binary_round_aux_ge_one.
  - pose proof (digits2_lower qp 52 ltac:(lia)
                  ltac:(change (2 ^ 52) with 4503599627370496; lia)). lia.
  - destruct (Z.eq_dec ed (-50)) as [-> | Ne].
    + change (2 ^ (-50 - -50)) with 1 in A.
      pose proof (Z.div_le_lower_bound (Zpos md * 9007199254740992)
                    5629499534213120 9007199254740992 ltac:(lia) ltac:(lia))
        as Q'.
      unfold Z.div in Q'. rewrite DE in Q'. cbv [fst] in Q'.
      pose proof (digits2_lower qp 53 ltac:(lia)
                    ltac:(change (2 ^ 53) with 9007199254740992; lia)). lia.
    + pose proof (digits2_lower qp 52 ltac:(lia)
                    ltac:(change (2 ^ 52) with 4503599627370496; lia)). lia.
Qed.

#[local] Close Scope Z_scope.

(** ** Order and differences of numbers *)

Lemma sub_positive (a b : number) :
  is_nan a = false -> is_nan b = false -> (0 <? b - a) = (a <? b).
Proof.
  intros Na Nb. rewrite !ltb_spec, sub_spec.
  apply SFsub_positive; try apply Prim2SF_valid; now apply not_nan_spec.
Qed.

Lemma sub_not_nan (a b : number) :
  is_finite a = true -> is_nan b = false -> is_nan (a - b) = false.
Proof.
  intros Fa Nb. apply not_nan_spec. rewrite sub_spec.
  apply is_finite_spec in Fa.
  apply SFsub_not_nan; try apply Prim2SF_valid.
  - intros s E. destruct Fa as [[b' F] | [s' [m [e F]]]]; congruence.
  - destruct Fa as [[b' F] | [s' [m [e F]]]]; congruence.
  - now apply not_nan_spec.
Qed.

(** Two numbers that are not NaN are comparable: not [a < b] is [b <= a]. *)
Lemma not_ltb_leb (a b : number) :
  is_nan a = false -> is_nan b = false -> (a <? b) = false ->
  (b <=? a) = true.
Proof.
  intros Na Nb. rewrite ltb_spec, leb_spec. unfold SFltb, SFleb.
  rewrite (SFcompare_antisym (Prim2SF a) (Prim2SF b))
    by apply Prim2SF_valid.
  apply not_nan_spec in Na, Nb.
  destruct (Prim2SF a) as [sa | sa | | sa ma ea];
    destruct (Prim2SF b) as [sb | sb | | sb mb eb]; try congruence;
    destruct (SFcompare _ _) as [[] |] eqn:E; simpl; try congruence;
    try (destruct sa; discriminate E); try (destruct sb; discriminate E);
    try (destruct sa, sb; discriminate E).
Qed.

Lemma ltb_leb (a b : number) : (a <? b) = true -> (a <=? b) = true.
Proof.
  rewrite ltb_spec, leb_spec. unfold SFltb, SFleb.
  now destruct (SFcompare _ _) as [[] |].
Qed.

Lemma leb_refl (a : number) : is_nan a = false -> (a <=? a) = true.
Proof.
  intros N. apply not_ltb_leb; try assumption. apply ltb_irrefl.
Qed.

Lemma leb_not_nan (a b : number) :
  (a <=? b) = true -> is_nan a = false /\ is_nan b = false.
Proof.
  rewrite leb_spec. unfold SFleb. intros H.
  split; apply not_nan_spec; intros E; rewrite E in H;
    [| destruct (Prim2SF a)]; discriminate.
Qed.

Lemma leb_not_ltb (a b : number) : (a <=? b) = true -> (b <? a) = false.
Proof.
  rewrite leb_spec, ltb_spec. unfold SFleb, SFltb.
  rewrite (SFcompare_antisym (Prim2SF a) (Prim2SF b))
    by apply Prim2SF_valid.
  now destruct (SFcompare (Prim2SF a) (Prim2SF b)) as [[] |].
Qed.

Lemma div_five_ge_one (d : number) : (5 <=? d) = true -> (1 <=? d / 5) = true.
Proof.
  rewrite !leb_spec, div_spec, Prim2SF_five, Prim2SF_one.
  apply SFdiv_five_ge_one, Prim2SF_valid.
Qed.

(** ** Running totals that differ in the sign of zero *)

Lemma alike_refl (x : number) : alike x x.
Proof. now left. Qed.

Lemma alike_add_zero (x : number) : alike (x + 0) x.
Proof.
  destruct (Prim2SF x) as [b | b | | s m e] eqn:E.
  - right. split; [| now exists b].
    rewrite add_spec, E. destruct b; [now exists false | now exists false].
  - left. apply Prim2SF_inj. rewrite add_spec, E. reflexivity.
  - left. apply Prim2SF_inj. rewrite add_spec, E. reflexivity.
  - left. apply Prim2SF_inj. rewrite add_spec, E. reflexivity.
Qed.

Lemma alike_add (x y c : number) : alike x y -> alike (x + c) (y + c).
Proof.
  intros [-> | [[bx Hx] [by' Hy]]]; [now left |].
  destruct (Prim2SF c) as [b | b | | s m e] eqn:E.
  - right. rewrite !add_spec, Hx, Hy, E. split.
    + destruct bx, b; eexists; reflexivity.
    + destruct by', b; eexists; reflexivity.
  - left. apply Prim2SF_inj. rewrite !add_spec, Hx, Hy, E. reflexivity.
  - left. apply Prim2SF_inj. rewrite !add_spec, Hx, Hy, E. reflexivity.
  - left. apply Prim2SF_inj. rewrite !add_spec, Hx, Hy, E. reflexivity.
Qed.

(** The final clamp does not tell alike totals apart. *)
Lemma alike_clamp (x y : number) :
  alike x y -> Math_max 0 (Math_min 100 x) = Math_max 0 (Math_min 100 y).
Proof.
  intros [-> | [[bx Hx] [by' Hy]]]; [reflexivity |].
  apply zero_cases in Hx, Hy. subst. now destruct bx, by'.
Qed.

Ltac alike_chain :=
  repeat match goal with
    | |- alike ?x ?x => apply alike_refl
    | |- alike (?x + 0) ?x => apply alike_add_zero
    | |- alike (?x + ?c) (?y + ?c) => apply alike_add
    | |- alike (match ?o with Some _ => _ | None => _ end) _ => destruct o
    | |- alike (if ?b then _ else _) _ => destruct b
    end.

Lemma eqb_alike (a k : number) :
  (a =? k) = true -> alike a k /\ is_nan a = false /\ is_nan k = false.
Proof.
  rewrite eqb_spec. unfold SFeqb. intros H.
  assert (Na : Prim2SF a <> S754_nan)
    by (intros E; rewrite E in H; discriminate).
  assert (Nk : Prim2SF k <> S754_nan)
    by (intros E; rewrite E in H; destruct (Prim2SF a); discriminate).
  split; [| split; now apply not_nan_spec].
  destruct (Prim2SF a) as [sa | sa | | sa ma ea] eqn:Ea;
    destruct (Prim2SF k) as [sk | sk | | sk mk ek] eqn:Ek;
    try congruence; try (destruct sa; discriminate H);
    try (destruct sk; discriminate H).
  - right. eauto.
  - left. apply Prim2SF_inj. rewrite Ea, Ek.
    destruct sa, sk; try discriminate H; reflexivity.
  - left. apply Prim2SF_inj. rewrite Ea, Ek. simpl in H.
    assert (sa = sk /\ ea = ek /\ ma = mk) as [-> [-> ->]]; [| reflexivity].
    destruct sa, sk; try discriminate H;
      destruct (Z.compare_spec ea ek) as [-> | L | L]; try discriminate H;
      destruct (Pos.compare_cont Eq ma mk) eqn:C; try discriminate H;
      apply Pos.compare_eq in C; now subst.
Qed.

Lemma alike_not_ltb (a b k : number) :
  alike a k -> alike b k -> (a <? b) = false.
Proof.
  intros [-> | [[sa Ha] [sk Hk]]] [-> | [[sb Hb] [sk' Hk']]].
  - apply ltb_irrefl.
  - rewrite ltb_spec, Hb, Hk'. reflexivity.
  - rewrite ltb_spec, Ha, Hk. reflexivity.
  - rewrite ltb_spec, Ha, Hb. reflexivity.
Qed.

(** ** The clamp *)

Lemma nan_clamp : Math_max 0 (Math_min 100 nan) = nan.
Proof. reflexivity. Qed.

Lemma clamp_cases (x : number) :
  let r := Math_max 0 (Math_min 100 x) in
  r = nan \/ r = 0 \/ r = 100 \/
  (r = x /\ (0 <? x) = true /\ (100 <? x) = false /\ is_nan x = false).
Proof.
  unfold Math_max, Math_min. destruct (is_nan x) eqn:N.
  - left. now rewrite orb_true_r.
  - change (is_nan 100) with false. cbv [orb].
    destruct (100 <? x) eqn:G; [right; right; left; reflexivity |].
    assert (M : (if x <? 100 then x else if get_sign 100 then 100 else x) = x)
      by now destruct (x <? 100).
    rewrite M, N. change (is_nan 0) with false. cbv [orb].
    destruct (0 <? x) eqn:P; [right; right; right; tauto |].
    right. left. now destruct (x <? 0).
Qed.

(** Once the quotient is at least 1 the proximity is clamped to 0. *)
Lemma proximity_clamped (q : number) :
  (1 <=? q) = true -> Math_max 0 (1 - q) = 0.
Proof.
  intros H. destruct (leb_not_nan _ _ H) as [_ Nq].
  assert (Nr : is_nan (1 - q) = false) by now apply sub_not_nan.
  assert (P : (0 <? 1 - q) = false).
  { rewrite sub_positive by (try assumption; reflexivity).
    now apply leb_not_ltb. }
  unfold Math_max. rewrite Nr, P. change (is_nan 0) with false.
  cbv [orb]. now destruct (1 - q <? 0).
Qed.

(** ** Sorting and truncation *)

Section SortFacts.
Context {A : Type}.
Variable comparefn : A -> A -> number.

Lemma sort_insert_length (x : A) (l : list A) :
  List.length (sort_insert comparefn x l) = S (List.length l).
Proof.
  induction l as [| y l IH]; simpl; [reflexivity |].
  destruct (sorts_after comparefn x y); simpl; congruence.
Qed.

Lemma Array_sort_length (l : list A) :
  List.length (Array_sort comparefn l) = List.length l.
Proof.
  induction l as [| x l IH]; simpl; [reflexivity |].
  now rewrite sort_insert_length, IH.
Qed.

Lemma sort_insert_In (x z : A) (l : list A) :
  In z (sort_insert comparefn x l) <-> z = x \/ In z l.
Proof.
  induction l as [| y l IH]; simpl.
  - intuition congruence.
  - destruct (sorts_after comparefn x y); simpl; rewrite ?IH;
      intuition congruence.
Qed.

Lemma Array_sort_In (z : A) (l : list A) :
  In z (Array_sort comparefn l) <-> In z l.
Proof.
  induction l as [| x l IH]; simpl; [tauto |].
  rewrite sort_insert_In, IH. intuition congruence.
Qed.

Lemma sort_insert_Permutation (x : A) (l : list A) :
  Permutation (sort_insert comparefn x l) (x :: l).
Proof.
  induction l as [| y l IH]; cbn [sort_insert]; [reflexivity |].
  destruct (sorts_after comparefn x y); [| reflexivity].
  rewrite IH. apply perm_swap.
Qed.

Lemma Array_sort_Permutation (l : list A) :
  Permutation (Array_sort comparefn l) l.
Proof.
  induction l as [| x l IH]; cbn [Array_sort]; [reflexivity |].
  rewrite sort_insert_Permutation. now constructor.
Qed.

(** Stability: a class [P] of elements none of which sorts after another
    keeps its order. *)
Lemma sort_insert_filter (P : A -> bool) (x : A) (l : list A) :
  (forall y, P x = true -> P y = true ->
             sorts_after comparefn x y = false) ->
  filter P (sort_insert comparefn x l) = filter P (x :: l).
Proof.
  intros HP. induction l as [| y l IH]; [reflexivity |].
  simpl. destruct (sorts_after comparefn x y) eqn:E; [| reflexivity].
  simpl. simpl in IH. rewrite IH. pose proof (HP y) as Hy.
  destruct (P x), (P y); try reflexivity.
  rewrite Hy in E by reflexivity. discriminate.
Qed.

Lemma Array_sort_filter (P : A -> bool) (l : list A) :
  (forall x y, P x = true -> P y = true ->
               sorts_after comparefn x y = false) ->
  filter P (Array_sort comparefn l) = filter P l.
Proof.
  intros HP. induction l as [| x l IH]; [reflexivity |].
  simpl Array_sort. rewrite sort_insert_filter by (intros; now apply HP).
  simpl. now rewrite IH.
Qed.

End SortFacts.

Lemma In_firstn {A : Type} (n : nat) (l : list A) (x : A) :
  In x (firstn n l) -> In x l.
Proof.
  revert l. induction n as [| n IH]; intros [| y l]; simpl; try tauto.
  intros [H | H]; [now left | right; now apply IH].
Qed.

Lemma descending_cons (a : number) (l : list number) :
  descending (a :: l)
  = match l with [] => true | b :: _ => b <=? a end && descending l.
Proof. destruct l; reflexivity. Qed.

Lemma descending_firstn (n : nat) (l : list number) :
  descending l = true -> descending (firstn n l) = true.
Proof.
  revert l. induction n as [| n IH]; intros l S; [reflexivity |].
  destruct l as [| a l]; [reflexivity |].
  rewrite descending_cons in S. apply andb_true_iff in S.
  destruct S as [Hd S]. cbn [firstn]. rewrite descending_cons, (IH l S).
  destruct l as [| b l]; [now rewrite firstn_nil |].
  destruct n; [reflexivity |]. cbn [firstn]. now rewrite Hd.
Qed.

(** A descending list of two or more scores has no NaN in it. *)
Lemma descending_not_nan (l : list number) :
  (2 <= List.length l)%nat -> descending l = true ->
  Forall (fun x => is_nan x = false) l.
Proof.
  induction l as [| x l IH]; intros L S; [constructor |].
  destruct l as [| y l]; [simpl in L; lia |].
  rewrite descending_cons in S. apply andb_true_iff in S.
  destruct S as [Hd S]. destruct (leb_not_nan _ _ Hd) as [Ny Nx].
  constructor; [exact Nx |].
  destruct l as [| z l]; [now repeat constructor |].
  apply IH; [simpl; lia | exact S].
Qed.

Lemma sorts_after_byMutualScoreDesc (x y : Match) :
  is_nan (mutualScore x) = false -> is_nan (mutualScore y) = false ->
  sorts_after byMutualScoreDesc x y = (mutualScore x <? mutualScore y).
Proof.
  intros Nx Ny. unfold sorts_after, byMutualScoreDesc.
  now apply sub_positive.
Qed.

Lemma sort_insert_descending (x : Match) (l : list Match) :
  is_nan (mutualScore x) = false ->
  Forall (fun m => is_nan (mutualScore m) = false) l ->
  descending (map mutualScore l) = true ->
  descending (map mutualScore (sort_insert byMutualScoreDesc x l)) = true.
Proof.
  intros Nx. induction l as [| y l IH]; intros F S; [reflexivity |].
  inversion F as [| ? ? Ny F']; subst.
  cbn [sort_insert]. rewrite sorts_after_byMutualScoreDesc by assumption.
  cbn [map] in S. rewrite descending_cons in S.
  apply andb_true_iff in S. destruct S as [Hd S].
  destruct (mutualScore x <? mutualScore y) eqn:E.
  - cbn [map]. rewrite descending_cons, (IH F' S), andb_true_r.
    destruct l as [| z l]; cbn [sort_insert map].
    + now apply ltb_leb.
    + destruct (sorts_after byMutualScoreDesc x z); cbn [map].
      * exact Hd.
      * now apply ltb_leb.
  - cbn [map]. rewrite descending_cons. cbn [map]. 
    rewrite descending_cons, Hd, S, (not_ltb_leb _ _ Nx Ny E). reflexivity.
Qed.

Lemma Array_sort_descending (l : list Match) :
  Forall (fun m => is_nan (mutualScore m) = false) l ->
  descending (map mutualScore (Array_sort byMutualScoreDesc l)) = true.
Proof.
  induction l as [| x l IH]; intros F; [reflexivity |].
  inversion F as [| ? ? Nx F']; subst. cbn [Array_sort].
  apply sort_insert_descending; [exact Nx | | now apply IH].
  apply Forall_forall. intros m Hm. apply Array_sort_In in Hm.
  now apply (proj1 (Forall_forall _ _) F').
Qed.

Lemma Array_sort_stable (k : number) (l : list Match) :
  filter (scored k) (Array_sort byMutualScoreDesc l) = filter (scored k) l.
Proof.
  apply Array_sort_filter. unfold scored. intros x y Hx Hy.
  destruct (eqb_alike _ _ Hx) as [Ax [Nx _]].
  destruct (eqb_alike _ _ Hy) as [Ay [Ny _]].
  rewrite sorts_after_byMutualScoreDesc by assumption.
  now apply alike_not_ltb with (k := k).
Qed.

Lemma findTopMatches_length (seeker : Fruit) (candidates : list Fruit)
    (limit : nat) :
  List.length (findTopMatches seeker candidates limit)
  = Nat.min limit (List.length candidates).
Proof.
  unfold findTopMatches, Array_slice0.
  now rewrite length_firstn, Array_sort_length, length_map.
Qed.

Lemma findTopMatches_In (seeker : Fruit) (candidates : list Fruit)
    (limit : nat) (m : Match) :
  In m (findTopMatches seeker candidates limit) ->
  exists c, In c candidates /\ m = scoreMatch seeker c.
Proof.
  unfold findTopMatches, Array_slice0. intros H.
  apply In_firstn, Array_sort_In, in_map_iff in H.
  destruct H as [c [<- Hc]]. now exists c.
Qed.

(** ** The attribute scorers on their branches *)

Lemma scoreNumericAttribute_unknown (p : option NumericPreference) :
  scoreNumericAttribute p None = 0.
Proof. destruct p as [[[mn |] [mx |]] |]; reflexivity. Qed.

Lemma scoreBooleanAttribute_unknown (p : option bool) :
  scoreBooleanAttribute p None = 0.
Proof. destruct p; reflexivity. Qed.

Lemma scoreEnumAttribute_unknown (p : option EnumPreference) :
  scoreEnumAttribute p None = 0.
Proof.
  destruct p as [p |]; [| reflexivity].
  unfold scoreEnumAttribute. now destruct (truthy p).
Qed.

(** A value at the computed midpoint of a range whose half-width is not zero
    scores +15. *)
Lemma numeric_midpoint_scores_15 (mn mx : number) :
  let v := (mn + mx) / 2 in
  is_finite v = true -> (v <? mn) = false -> (mx <? v) = false ->
  is_nan ((mx - mn) / 2) = false -> is_zero ((mx - mn) / 2) = false ->
  scoreNumericAttribute (Some {| min := Some mn; max := Some mx |}) (Some v)
  = 15.
Proof.
  intros v F L G N Z. unfold scoreNumericAttribute. cbv [min max].
  rewrite L, G. fold v. rewrite (sub_diag v F).
  change (Math_abs 0) with 0.
  destruct (zero_div _ N Z) as [-> | ->]; reflexivity.
Qed.

(** A value exactly at [min], with only [min] set, scores +15. *)
Lemma numeric_at_min_scores_15 (mn : number) :
  is_finite mn = true ->
  scoreNumericAttribute (Some {| min := Some mn; max := None |}) (Some mn)
  = 15.
Proof.
  intros F. unfold scoreNumericAttribute. cbv [min max].
  now rewrite ltb_irrefl, (sub_diag mn F).
Qed.

(** Within bounds with only [min] set the score follows the formula
    [15 * max(0, 1 - (value - min) / 5)]. *)
Lemma numeric_min_only_formula (mn v : number) :
  (v <? mn) = false ->
  scoreNumericAttribute (Some {| min := Some mn; max := None |}) (Some v)
  = 15 * Math_max 0 (1 - (v - mn) / 5).
Proof.
  intros L. unfold scoreNumericAttribute. cbv [min max]. now rewrite L.
Qed.

(** ... and is 0 from the end of the 5-unit window on. *)
Lemma numeric_beyond_window_scores_0 (mn v : number) :
  (v <? mn) = false -> (1 <=? (v - mn) / 5) = true ->
  scoreNumericAttribute (Some {| min := Some mn; max := None |}) (Some v) = 0.
Proof.
  intros L Q. rewrite numeric_min_only_formula by exact L.
  now rewrite proximity_clamped.
Qed.

(** A value at least 5 above [min], with only [min] set, scores 0. *)
Lemma numeric_five_above_min_scores_0 (mn v : number) :
  (5 <=? v - mn) = true -> (v <? mn) = false ->
  scoreNumericAttribute (Some {| min := Some mn; max := None |}) (Some v) = 0.
Proof.
  intros W L. apply numeric_beyond_window_scores_0; [exact L |].
  now apply div_five_ge_one.
Qed.

(** A value below an active [min] scores -20. *)
Lemma numeric_below_min_scores_minus_20 (p : NumericPreference)
    (mn v : number) :
  min p = Some mn -> (v <? mn) = true ->
  scoreNumericAttribute (Some p) (Some v) = -20.
Proof.
  intros E L. unfold scoreNumericAttribute. rewrite E, L.
  now destruct (max p).
Qed.

Lemma point_range_scorer_nan (m : number) :
  (is_finite m = true -> is_finite (m + m) = true) ->
  scoreNumericAttribute (Some {| min := Some m; max := Some m |}) (Some m)
  = nan.
Proof.
  intros H. destruct (is_finite m) eqn:F.
  - specialize (H eq_refl). unfold scoreNumericAttribute. cbv [min max].
    rewrite ltb_irrefl, (half_of_double m H), (sub_diag m F). reflexivity.
  - destruct (not_finite_cases m F) as [-> | [-> | ->]]; reflexivity.
Qed.

(** When [m] is finite and [m + m] overflows, the point range [min = max = m]
    scores the value [m] with 0. *)
Lemma point_range_overflow_scores_0 (m : number) :
  is_finite m = true -> is_finite (m + m) = false ->
  scoreNumericAttribute (Some {| min := Some m; max := Some m |}) (Some m)
  = 0.
Proof.
  intros F O. unfold scoreNumericAttribute. cbv [min max].
  rewrite ltb_irrefl, (sub_diag m F).
  destruct (double_overflow m F O) as [s [p [e [M I]]]].
  assert (C : Math_abs (m - (m + m) / 2) = infinity).
  { apply Prim2SF_inj. unfold Math_abs.
    rewrite abs_spec, sub_spec, div_spec, I, M, Prim2SF_two.
    now destruct s. }
  rewrite C. reflexivity.
Qed.

(** ** The directional score and the mutual score *)

(** The directional score is NaN or lies in [[0, 100]]. *)
Lemma calculateCompatibilityScore_range (seeker candidate : Fruit) :
  calculateCompatibilityScore seeker candidate = nan \/
  in_range (calculateCompatibilityScore seeker candidate) = true.
Proof.
  unfold calculateCompatibilityScore.
  match goal with |- context [Math_min 100 ?s] => generalize s end.
  intros x. destruct (clamp_cases x) as [E | [E | [E | [E [P [G N]]]]]];
    cbv zeta in E; rewrite E; auto; right.
  unfold in_range. rewrite (ltb_leb _ _ P). apply not_ltb_leb; auto.
Qed.

(** A directional score that is not NaN is [+0] or a positive finite
    number. *)
Lemma calculateCompatibilityScore_shape (seeker candidate : Fruit) :
  is_nan (calculateCompatibilityScore seeker candidate) = false ->
  Prim2SF (calculateCompatibilityScore seeker candidate) = S754_zero false \/
  exists m e,
    Prim2SF (calculateCompatibilityScore seeker candidate)
    = S754_finite false m e.
Proof.
  unfold calculateCompatibilityScore.
  match goal with |- context [Math_min 100 ?s] => generalize s end.
  intros x. destruct (clamp_cases x) as [E | [E | [E | [E [P [G N]]]]]];
    cbv zeta in E; rewrite E; intros H.
  - discriminate H.
  - now left.
  - right. now eexists _, _.
  - right. rewrite ltb_spec in P, G.
    destruct (Prim2SF x) as [s | s | | s m e]; try discriminate P.
    + destruct s; discriminate.
    + destruct s; [discriminate P |]. now exists m, e.
Qed.

(** When one directional score is 0 and the other is not NaN, the mutual
    score is 0, in both argument orders. *)
Lemma zero_direction_zero_mutual (fruitA fruitB : Fruit) :
  calculateCompatibilityScore fruitA fruitB = 0 ->
  is_nan (calculateCompatibilityScore fruitB fruitA) = false ->
  calculateMutualScore fruitA fruitB = 0 /\
  calculateMutualScore fruitB fruitA = 0.
Proof.
  intros Z N.
  assert (E : calculateMutualScore fruitA fruitB = 0).
  { unfold calculateMutualScore. rewrite Z.
    rewrite (mul_zero_l _ (calculateCompatibilityScore_shape _ _ N)).
    reflexivity. }
  split; [exact E |]. unfold calculateMutualScore in *.
  now rewrite (mul_comm (calculateCompatibilityScore fruitB fruitA)).
Qed.

(** When no candidate has a NaN mutual score with the seeker,
    [findTopMatches] returns the first [limit] records of the stable
    descending arrangement of the per-candidate records. *)
Lemma findTopMatches_ranking (seeker : Fruit) (candidates : list Fruit)
    (limit : nat) :
  (forall c, In c candidates ->
             is_nan (calculateMutualScore seeker c) = false) ->
  let records := map (scoreMatch seeker) candidates in
  let sorted := Array_sort byMutualScoreDesc records in
  Permutation sorted records /\
  descending (map mutualScore sorted) = true /\
  (forall k, filter (scored k) sorted = filter (scored k) records) /\
  findTopMatches seeker candidates limit = firstn limit sorted /\
  descending (map mutualScore (findTopMatches seeker candidates limit))
  = true.
Proof.
  intros N records sorted.
  assert (F : Forall (fun m => is_nan (mutualScore m) = false) records).
  { apply Forall_forall. intros m Hm. apply in_map_iff in Hm.
    destruct Hm as [c [<- Hc]]. exact (N c Hc). }
  assert (S : descending (map mutualScore sorted) = true)
    by now apply Array_sort_descending.
  split; [apply Array_sort_Permutation |].
  split; [exact S |].
  split; [intros k; apply Array_sort_stable |].
  split; [reflexivity |].
  unfold findTopMatches, Array_slice0. fold records. fold sorted.
  rewrite <- firstn_map. now apply descending_firstn.
Qed.

(** ** The claims *)

(** C1: the scores are not always in [[0, 100]].  A seeker whose size
    preference is the point range [min = max = 5] scores a candidate of size
    5 with NaN, which is not in [[0, 100]]; so are the mutual score of the
    pair and the [mutualScore] field that [findTopMatches] builds. *)
Theorem point_range_scores_escape_0_100 :
  let seeker := anApple (pointSize 5) in
  let candidate := anOrange "fruits:orange1" FruitPreferences.empty in
  calculateCompatibilityScore seeker candidate = nan /\
  in_range (calculateCompatibilityScore seeker candidate) = false /\
  in_range (calculateMutualScore seeker candidate) = false /\
  map (fun m => in_range (mutualScore m))
      (findTopMatches seeker [candidate] 5) = [false].
Proof. vm_compute. repeat split. Qed.

(** C2: the ranking is not always in descending order of mutual score.  For
    a seeker without preferences and three candidates whose mutual scores
    are 50, NaN (point range) and 57, [findTopMatches] returns them in the
    input order, the score 50 in front of the score 57; and no arrangement
    of the three records is in descending order, whatever order a sort
    gives them. *)
Theorem ranking_not_descending_with_point_range :
  let seeker := anApple FruitPreferences.empty in
  let candidates :=
    [anOrange "fruits:orange1" FruitPreferences.empty;
     anOrange "fruits:orange2" (pointSize 5);
     anOrange "fruits:orange3" wormFree] in
  map fruitId (findTopMatches seeker candidates 5)
  = ["fruits:orange1"; "fruits:orange2"; "fruits:orange3"]%string /\
  map mutualScore (findTopMatches seeker candidates 5) = [50; nan; 57] /\
  descending (map mutualScore (findTopMatches seeker candidates 5)) = false /\
  (forall arrangement,
      Permutation arrangement (map (scoreMatch seeker) candidates) ->
      descending (map mutualScore arrangement) = false).
Proof.
  intros seeker candidates.
  split; [reflexivity |]. split; [reflexivity |]. split; [reflexivity |].
  intros arrangement P.
  destruct (descending (map mutualScore arrangement)) eqn:S; [| reflexivity].
  exfalso.
  assert (L : (2 <= List.length (map mutualScore arrangement))%nat).
  { rewrite length_map, (Permutation_length P). simpl. lia. }
  pose proof (descending_not_nan _ L S) as F.
  assert (I : In nan (map mutualScore arrangement)).
  { apply (Permutation_in _ (Permutation_sym (Permutation_map mutualScore P))).
    right. left. reflexivity. }
  apply (proj1 (Forall_forall _ _) F) in I. discriminate I.
Qed.

Lemma ranking_not_descending_with_point_range_witness :
  let seeker := anApple FruitPreferences.empty in
  let candidates :=
    [anOrange "fruits:orange1" FruitPreferences.empty;
     anOrange "fruits:orange2" (pointSize 5);
     anOrange "fruits:orange3" wormFree] in
  descending
    (map mutualScore (rev (map (scoreMatch seeker) candidates))) = false.
Proof.
  intros seeker candidates.
  apply (proj2 (proj2 (proj2 ranking_not_descending_with_point_range))).
  apply Permutation_sym, Permutation_rev.
Defined.

(** C3: when the candidate's value of a dimension is unknown, each of the
    three attribute scorers returns 0 whatever the preference, and the
    directional score is the same as with the preference of that dimension
    absent from the seeker. *)
Theorem unknown_attribute_is_neutral :
  (forall p, scoreNumericAttribute p None = 0) /\
  (forall p, scoreBooleanAttribute p None = 0) /\
  (forall p, scoreEnumAttribute p None = 0) /\
  (forall d seeker candidate,
      attributeUnknown d (attributes candidate) = true ->
      calculateCompatibilityScore seeker candidate
      = calculateCompatibilityScore (forgetPreference d seeker) candidate).
Proof.
  split; [exact scoreNumericAttribute_unknown |].
  split; [exact scoreBooleanAttribute_unknown |].
  split; [exact scoreEnumAttribute_unknown |].
  intros d [i t a [sz wt st lf wm sh ch]]
         [i' t' [asz awt ast alf awm ash ach] p'] H.
  unfold calculateCompatibilityScore, forgetPreference. apply alike_clamp.
  destruct d; simpl in H |- *;
    match type of H with is_unknown ?o = true => destruct o end;
    try discriminate H;
    rewrite ?scoreNumericAttribute_unknown, ?scoreBooleanAttribute_unknown,
      ?scoreEnumAttribute_unknown;
    alike_chain.
Qed.

Lemma unknown_attribute_is_neutral_witness :
  let seeker :=
    anApple (FruitPreferences.mk None None (Some true) None None
               (Some (Single "shiny")) None) in
  let candidate :=
    {| id := Some "fruits:orange4"%string; type := orange;
       attributes := FruitAttributes.mk (Some 6) (Some 170) None (Some false)
                       (Some false) None (Some false);
       preferences := FruitPreferences.empty |} in
  calculateCompatibilityScore seeker candidate
  = calculateCompatibilityScore (forgetPreference DHasStem seeker) candidate.
Proof.
  intros seeker candidate.
  apply (proj2 (proj2 (proj2 unknown_attribute_is_neutral))).
  reflexivity.
Defined.

(** C4: a value exactly at the midpoint of a range with both bounds set does
    not always yield +15.  For [min = max = 5] the value 5 is at the midpoint
    and inside the bounds, and the numeric scorer returns NaN. *)
Theorem midpoint_of_point_range_scores_nan :
  let preference := Some {| min := Some 5; max := Some 5 |} in
  (5 + 5) / 2 = 5 /\
  scoreNumericAttribute preference (Some 5) = nan /\
  (scoreNumericAttribute preference (Some 5) =? 15) = false.
Proof. vm_compute. repeat split. Qed.

(** C5: a seeker whose preference set is empty gives every candidate the
    directional score 50, and two entities without preferences have the
    mutual score 50. *)
Theorem no_preferences_score_50 :
  (forall seeker candidate,
      preferences seeker = FruitPreferences.empty ->
      calculateCompatibilityScore seeker candidate = 50) /\
  (forall fruitA fruitB,
      preferences fruitA = FruitPreferences.empty ->
      preferences fruitB = FruitPreferences.empty ->
      calculateMutualScore fruitA fruitB = 50).
Proof.
  assert (H : forall seeker candidate,
             preferences seeker = FruitPreferences.empty ->
             calculateCompatibilityScore seeker candidate = 50).
  { intros seeker candidate E. unfold calculateCompatibilityScore.
    rewrite E. reflexivity. }
  split; [exact H |].
  intros fruitA fruitB EA EB. unfold calculateMutualScore.
  rewrite (H fruitA fruitB EA), (H fruitB fruitA EB). reflexivity.
Qed.

Lemma no_preferences_score_50_witness :
  calculateCompatibilityScore (anApple FruitPreferences.empty)
    (anOrange "fruits:orange1" wormFree) = 50 /\
  calculateMutualScore (anApple FruitPreferences.empty)
    (anOrange "fruits:orange1" FruitPreferences.empty) = 50.
Proof.
  split.
  - apply (proj1 no_preferences_score_50). reflexivity.
  - apply (proj2 no_preferences_score_50); reflexivity.
Defined.

(** C6: the mutual score is symmetric, [calculateMutualScore A B] and
    [calculateMutualScore B A] are the same number. *)
Theorem calculateMutualScore_symmetric (fruitA fruitB : Fruit) :
  calculateMutualScore fruitA fruitB = calculateMutualScore fruitB fruitA.
Proof.
  unfold calculateMutualScore.
  now rewrite (mul_comm (calculateCompatibilityScore fruitA fruitB)).
Qed.

(** C7: a directional score of 0 does not always force the mutual score to
    0.  The demanding apple scores the orange with 0, the orange (point
    range on size) scores the apple with NaN, and the mutual score of the
    pair is NaN, in both argument orders. *)
Theorem zero_direction_with_nan_direction_is_nan :
  let fruitA := anApple demanding in
  let fruitB := anOrange "fruits:orange1" (pointSize 5) in
  calculateCompatibilityScore fruitA fruitB = 0 /\
  calculateCompatibilityScore fruitB fruitA = nan /\
  calculateMutualScore fruitA fruitB = nan /\
  calculateMutualScore fruitB fruitA = nan /\
  (calculateMutualScore fruitA fruitB =? 0) = false.
Proof. vm_compute. repeat split. Qed.

(** C8: the [mutualScore] field that [findTopMatches] builds for a
    candidate is the geometric mean of the two unrounded directional scores
    rounded to one decimal place, and it is [calculateMutualScore] of the
    seeker and that candidate; this holds for every record of the ranking. *)
Theorem ranker_mutualScore_is_calculateMutualScore
    (seeker : Fruit) :
  (forall candidate,
      mutualScore (scoreMatch seeker candidate)
      = roundToOneDecimal
          (geometricMean (calculateCompatibilityScore seeker candidate)
                         (calculateCompatibilityScore candidate seeker)) /\
      mutualScore (scoreMatch seeker candidate)
      = calculateMutualScore seeker candidate) /\
  (forall candidates limit m,
      In m (findTopMatches seeker candidates limit) ->
      In (fruit m) candidates /\
      mutualScore m = calculateMutualScore seeker (fruit m)).
Proof.
  split.
  - intros candidate. split; reflexivity.
  - intros candidates limit m H.
    destruct (findTopMatches_In _ _ _ _ H) as [c [Hc ->]].
    split; [exact Hc | reflexivity].
Qed.

Lemma ranker_mutualScore_is_calculateMutualScore_witness :
  let seeker := anApple wormFree in
  let candidates := [anOrange "fruits:orange1" FruitPreferences.empty] in
  let m :=
    scoreMatch seeker (anOrange "fruits:orange1" FruitPreferences.empty) in
  In (fruit m) candidates /\
  mutualScore m = calculateMutualScore seeker (fruit m).
Proof.
  intros seeker candidates m.
  apply (proj2 (ranker_mutualScore_is_calculateMutualScore seeker)
           candidates 5%nat m).
  left. reflexivity.
Defined.

(** C9 (amended): for a numeric preference with [min = max = m] and a
    candidate value equal to [m], unless [m] is finite and [m + m] overflows,
    the numeric scorer returns NaN (for a finite [m] it divides the distance
    0 by the half-width 0), and the NaN passes through the clamp: the
    directional score of a seeker with that preference on size or on weight
    is NaN, whatever the other preferences and attributes are, and is not in
    [[0, 100]]. *)
Theorem point_range_score_is_nan (m : number) :
  (is_finite m = true -> is_finite (m + m) = true) ->
  let preference := Some {| min := Some m; max := Some m |} in
  (is_finite m = true ->
   Math_abs (m - (m + m) / 2) = 0 /\ (m - m) / 2 = 0) /\
  scoreNumericAttribute preference (Some m) = nan /\
  (forall seeker candidate,
      (FruitPreferences.size (preferences seeker) = preference /\
       FruitAttributes.size (attributes candidate) = Some m) \/
      (FruitPreferences.weight (preferences seeker) = preference /\
       FruitAttributes.weight (attributes candidate) = Some m) ->
      calculateCompatibilityScore seeker candidate = nan /\
      in_range (calculateCompatibilityScore seeker candidate) = false).
Proof.
  intros H preference. split; [| split].
  - intros F. rewrite (half_of_double m (H F)), (sub_diag m F). now split.
  - now apply point_range_scorer_nan.
  - intros [i t a [sz wt st lf wm sh ch]] [i' t' a' p'] Hc.
    assert (E : calculateCompatibilityScore
                  {| id := i; type := t; attributes := a;
                     preferences :=
                       FruitPreferences.mk sz wt st lf wm sh ch |}
                  {| id := i'; type := t'; attributes := a';
                     preferences := p' |} = nan).
    { unfold calculateCompatibilityScore. simpl in Hc |- *.
      destruct Hc as [[-> ->] | [-> ->]]; subst preference;
        rewrite (point_range_scorer_nan m H);
        try destruct sz; try destruct wt;
        rewrite ?add_nan_r; change (50 + nan) with nan;
        destruct st, lf, wm, ch, sh as [sh |]; try destruct (truthy sh);
        rewrite ?add_nan_l; exact nan_clamp. }
    now rewrite E.
Qed.

Lemma point_range_score_is_nan_witness :
  scoreNumericAttribute (Some {| min := Some 5; max := Some 5 |}) (Some 5)
  = nan /\
  calculateCompatibilityScore (anApple (pointSize 5))
    (anOrange "fruits:orange1" wormFree) = nan.
Proof.
  assert (H : is_finite 5 = true -> is_finite (5 + 5) = true)
    by (intros _; reflexivity).
  split.
  - exact (proj1 (proj2 (point_range_score_is_nan 5 H))).
  - apply (proj2 (proj2 (point_range_score_is_nan 5 H))).
    left. split; reflexivity.
Defined.

(** C9, as stated, fails for a finite [m] whose double overflows: with
    [min = max = m = 2^1023] the range centre is computed as +Infinity, the
    scorer returns 0 and the directional score is 50. *)
Lemma point_range_of_huge_value_scores_0 :
  let m := 0x1p+1023 in
  is_finite m = true /\
  (m + m) / 2 = infinity /\
  scoreNumericAttribute (Some {| min := Some m; max := Some m |}) (Some m)
  = 0 /\
  calculateCompatibilityScore
    {| id := None; type := apple; attributes := sampleAttributes 5;
       preferences := pointSize m |}
    {| id := None; type := orange; attributes := sampleAttributes m;
       preferences := FruitPreferences.empty |} = 50.
Proof. vm_compute. repeat split. Qed.

(** C10: an empty array as enum preference is an active preference that no
    value satisfies: for every known attribute value the enum scorer returns
    -15 (an absent preference returns 0), and the directional score of a
    seeker with only that preference drops from 50 to 35. *)
Theorem empty_enum_preference_is_active (v : string) :
  truthy (Many []) = true /\
  scoreEnumAttribute (Some (Many [])) (Some v) = -15 /\
  scoreEnumAttribute None (Some v) = 0 /\
  (forall seeker candidate,
      preferences seeker
      = FruitPreferences.mk None None None None None (Some (Many [])) None ->
      FruitAttributes.shineFactor (attributes candidate) = Some v ->
      calculateCompatibilityScore seeker candidate = 35).
Proof.
  repeat split.
  intros seeker candidate Hp Ha. unfold calculateCompatibilityScore.
  rewrite Hp, Ha. reflexivity.
Qed.

Lemma empty_enum_preference_is_active_witness :
  calculateCompatibilityScore
    (anApple (FruitPreferences.mk None None None None None
                (Some (Many [])) None))
    (anOrange "fruits:orange1" FruitPreferences.empty) = 35.
Proof.
  apply (proj2 (proj2 (proj2 (empty_enum_preference_is_active "shiny"))));
    reflexivity.
Defined.

(** ** The order of numbers is transitive *)

Lemma SFleb_orderKey (x y : spec_float) :
  x <> S754_nan -> y <> S754_nan ->
  (SFleb x y = true <-> keyLe (orderKey x) (orderKey y)).
Proof.
  intros Nx Ny. unfold SFleb.
  destruct x as [sx | sx | | sx mx ex]; destruct y as [sy | sy | | sy my ey];
    try congruence; cbn [SFcompare orderKey keyLe].
  all: try (destruct sx); try (destruct sy); cbn [keyLe].
  all: try (change (PosDef.Pos.compare_cont Eq mx my)
              with (Pos.compare mx my);
            destruct (Z.compare_spec ex ey);
            destruct (Pos.compare_spec mx my); cbn [CompOpp]).
  all: split; intros K; try lia; try discriminate K; try reflexivity.
Qed.

Lemma leb_trans (a b c : number) :
  (a <=? b) = true -> (b <=? c) = true -> (a <=? c) = true.
Proof.
  intros H1 H2.
  destruct (leb_not_nan _ _ H1) as [Na Nb].
  destruct (leb_not_nan _ _ H2) as [_ Nc].
  apply not_nan_spec in Na, Nb, Nc.
  rewrite leb_spec in *.
  apply SFleb_orderKey in H1, H2; try assumption.
  apply SFleb_orderKey; try assumption.
  destruct (orderKey (Prim2SF a)) as [[a1 a2] a3].
  destruct (orderKey (Prim2SF b)) as [[b1 b2] b3].
  destruct (orderKey (Prim2SF c)) as [[c1 c2] c3].
  cbn [keyLe] in *. lia.
Qed.

(** ** The sign of a rounded product *)

#[local] Open Scope Z_scope.

Lemma shr_fexp_nonneg (m e : Z) (l : location) :
  0 <= m -> 0 <= shr_m (fst (shr_fexp prec emax m e l)).
Proof.
  intros H. unfold shr_fexp, shr.
  assert (E : shr_m (shr_record_of_loc m l) = m) by (now destruct l as [| []]).
  destruct (fexp prec emax (Zdigits2 m + e) - e) as [| k | k]; cbv [fst];
    try (now rewrite E).
  rewrite iter_shr_1_m by (now rewrite E). rewrite E.
  apply Z.div_pos; [exact H |]. apply Z.pow_pos_nonneg; lia.
Qed.

(** Rounding a mantissa that is not negative never gives NaN, and the
    result carries the given sign. *)
Lemma binary_round_aux_signed (s : bool) (m e : Z) (l : location) :
  0 <= m ->
  match binary_round_aux prec emax s m e l with
  | S754_nan => False
  | S754_zero b | S754_infinity b | S754_finite b _ _ => b = s
  end.
Proof.
  intros H. unfold binary_round_aux.
  pose proof (shr_fexp_nonneg m e l H) as H1.
  destruct (shr_fexp prec emax m e l) as [mrs' e']. cbv [fst] in H1.
  assert (H2 : 0 <= round_nearest_even (shr_m mrs') (loc_of_shr_record mrs')).
  { unfold round_nearest_even.
    destruct (loc_of_shr_record mrs') as [| []]; try lia.
    destruct (Z.even (shr_m mrs')); lia. }
  pose proof (shr_fexp_nonneg _ e' loc_Exact H2) as H3.
  destruct (shr_fexp prec emax _ e' loc_Exact) as [mrs'' e''].
  cbv [fst] in H3.
  destruct (shr_m mrs'') as [| p | p]; [reflexivity | | lia].
  now destruct (e'' <=? emax - prec).
Qed.

#[local] Close Scope Z_scope.

(** The product of two numbers that are at least zero is NaN or at least
    zero. *)
Lemma mul_nonneg (a b : number) :
  (0 <=? a) = true -> (0 <=? b) = true ->
  is_nan (a * b) = true \/ (0 <=? a * b) = true.
Proof.
  rewrite !leb_spec, is_nan_spec, mul_spec.
  change (Prim2SF 0) with (S754_zero false).
  destruct (Prim2SF a) as [sa | sa | | sa ma ea];
    destruct (Prim2SF b) as [sb | sb | | sb mb eb];
    try destruct sa; try destruct sb; cbn; intros Ha Hb;
    try discriminate; auto.
  pose proof (binary_round_aux_signed false (Zpos (ma * mb)) (ea + eb)
                loc_Exact ltac:(lia)) as S.
  destruct (binary_round_aux _ _ _ _ _ _) as [s | s | | s m e];
    try subst s; cbn; auto; contradiction.
Qed.

Lemma mul_nan_r (a : number) : a * nan = nan.
Proof.
  apply Prim2SF_inj. rewrite mul_spec, Prim2SF_nan.
  now destruct (Prim2SF a).
Qed.

Lemma Math_max_zero_nonneg (p : number) :
  is_nan (Math_max 0 p) = true \/ (0 <=? Math_max 0 p) = true.
Proof.
  unfold Math_max. change (is_nan 0) with false. cbv [orb].
  destruct (is_nan p); [now left | right].
  destruct (0 <? p) eqn:P; [now apply ltb_leb |].
  now destruct (p <? 0).
Qed.

Lemma fifteen_times_nonneg (y : number) :
  is_nan y = true \/ (0 <=? y) = true ->
  is_nan (15 * y) = true \/ (0 <=? 15 * y) = true.
Proof.
  intros [N | P].
  - left. now rewrite (is_nan_eq _ N), mul_nan_r.
  - now apply mul_nonneg.
Qed.

(** ** The numeric scorer: penalty, sign and one-sided windows *)

(** Within its bounds a value scores NaN or at least 0. *)
Lemma numeric_within_nonneg (p : NumericPreference) (v : number) :
  outOfRange p v = false ->
  is_nan (scoreNumericAttribute (Some p) (Some v)) = true \/
  (0 <=? scoreNumericAttribute (Some p) (Some v)) = true.
Proof.
  unfold outOfRange, scoreNumericAttribute. intros H.
  apply orb_false_elim in H. destruct H as [L G].
  destruct (min p) as [mn |]; destruct (max p) as [mx |];
    rewrite ?L, ?G; try (now right);
    apply fifteen_times_nonneg, Math_max_zero_nonneg.
Qed.

Lemma numeric_out_of_range (p : NumericPreference) (v : number) :
  outOfRange p v = true -> scoreNumericAttribute (Some p) (Some v) = -20.
Proof.
  unfold outOfRange, scoreNumericAttribute. intros H.
  destruct (min p) as [mn |]; destruct (max p) as [mx |];
    try discriminate H.
  - destruct (v <? mn); [reflexivity |]. cbn [orb] in H. now rewrite H.
  - rewrite orb_false_r in H. now rewrite H.
  - cbn [orb] in H. now rewrite H.
Qed.

Lemma minus_20_negative (x : number) :
  x = -20 -> is_nan x = false /\ (0 <=? x) = false.
Proof. intros ->. now split. Qed.

Lemma five_leb_positive (x : number) : (5 <=? x) = true -> (0 <? x) = true.
Proof.
  rewrite leb_spec, ltb_spec, Prim2SF_five.
  change (Prim2SF 0) with (S754_zero false).
  destruct (Prim2SF x) as [s | s | | s m e]; try destruct s; cbn;
    try discriminate; reflexivity.
Qed.

Lemma sub_nan_operands (a b : number) :
  is_nan (a - b) = false -> is_nan a = false /\ is_nan b = false.
Proof.
  intros H. apply not_nan_spec in H. rewrite sub_spec in H.
  split; apply not_nan_spec; intros E; apply H; rewrite E;
    [reflexivity | now destruct (Prim2SF a)].
Qed.

Lemma five_apart_ordered (b v : number) :
  (5 <=? v - b) = true -> (v <? b) = false.
Proof.
  intros H. pose proof (five_leb_positive _ H) as P.
  destruct (leb_not_nan _ _ H) as [_ N].
  destruct (sub_nan_operands _ _ N) as [Nv Nb].
  rewrite sub_positive in P by assumption.
  now apply leb_not_ltb, ltb_leb.
Qed.

(** X1: for a known value, the numeric scorer returns the penalty -20 exactly
    when the value is below an active [min] or above an active [max]; no
    proximity bonus ever equals -20. *)
Theorem numeric_penalty_iff_out_of_range (p : NumericPreference)
    (v : number) :
  scoreNumericAttribute (Some p) (Some v) = -20 <-> outOfRange p v = true.
Proof.
  split; [| apply numeric_out_of_range].
  intros E. destruct (outOfRange p v) eqn:O; [reflexivity | exfalso].
  destruct (minus_20_negative _ E) as [N P].
  destruct (numeric_within_nonneg p v O) as [H | H]; congruence.
Qed.

(** X2: whatever the preference and the value, the contribution of a numeric
    attribute is the penalty -20, NaN, or a number that is at least 0: the
    proximity bonus is never negative. *)
Theorem numeric_contribution_sign (preference : option NumericPreference)
    (actualValue : option number) :
  let r := scoreNumericAttribute preference actualValue in
  r = -20 \/ is_nan r = true \/ (0 <=? r) = true.
Proof.
  intros r. subst r.
  destruct preference as [p |]; [| right; right; reflexivity].
  destruct actualValue as [v |];
    [| rewrite scoreNumericAttribute_unknown; right; right; reflexivity].
  destruct (outOfRange p v) eqn:O.
  - left. now apply numeric_out_of_range.
  - right. now apply numeric_within_nonneg.
Qed.

(** X3: with one bound only, a finite value exactly at that bound scores the
    full +15, for [min] alone and for [max] alone. *)
Theorem one_sided_bound_scores_15 (b : number) :
  is_finite b = true ->
  scoreNumericAttribute (Some {| min := Some b; max := None |}) (Some b) = 15
  /\
  scoreNumericAttribute (Some {| min := None; max := Some b |}) (Some b) = 15.
Proof.
  intros F. unfold scoreNumericAttribute. cbv [min max].
  now rewrite ltb_irrefl, (sub_diag b F).
Qed.

Lemma one_sided_bound_scores_15_witness :
  scoreNumericAttribute (Some {| min := Some 4; max := None |}) (Some 4) = 15
  /\
  scoreNumericAttribute (Some {| min := None; max := Some 4 |}) (Some 4) = 15.
Proof. apply (one_sided_bound_scores_15 4). reflexivity. Defined.

(** X4: with one bound only, the bonus is gone 5 units inside the bound:
    when [v - b] is at least 5, the value [v] scores 0 against [min = b]
    alone, and the value [b] scores 0 against [max = v] alone. *)
Theorem one_sided_five_inside_scores_0 (b v : number) :
  (5 <=? v - b) = true ->
  scoreNumericAttribute (Some {| min := Some b; max := None |}) (Some v) = 0
  /\
  scoreNumericAttribute (Some {| min := None; max := Some v |}) (Some b) = 0.
Proof.
  intros H. pose proof (five_apart_ordered b v H) as L.
  pose proof (div_five_ge_one _ H) as Q.
  unfold scoreNumericAttribute. cbv [min max]. rewrite L.
  now rewrite (proximity_clamped _ Q).
Qed.

Lemma one_sided_five_inside_scores_0_witness :
  scoreNumericAttribute (Some {| min := Some 2; max := None |}) (Some 9) = 0
  /\
  scoreNumericAttribute (Some {| min := None; max := Some 9 |}) (Some 2) = 0.
Proof. apply (one_sided_five_inside_scores_0 2 9). reflexivity. Defined.

(** ** Scores without numeric preferences *)

Lemma spec_float_eqb_eq (x y : spec_float) :
  spec_float_eqb x y = true -> x = y.
Proof.
  destruct x as [a | a | | a m e]; destruct y as [b | b | | b n f];
    cbn [spec_float_eqb]; try discriminate; try reflexivity.
  - intros H. now rewrite (eqb_prop _ _ H).
  - intros H. now rewrite (eqb_prop _ _ H).
  - intros H. apply andb_prop in H. destruct H as [H He].
    apply andb_prop in H. destruct H as [Hs Hm].
    rewrite (eqb_prop _ _ Hs). apply Pos.eqb_eq in Hm. apply Z.eqb_eq in He.
    now subst.
Qed.

Lemma sameNumber_eq (x y : number) : sameNumber x y = true -> x = y.
Proof. intros H. apply Prim2SF_inj. now apply spec_float_eqb_eq. Qed.

Lemma In_distinct (x : number) (l : list number) :
  In x l -> In x (distinct l).
Proof.
  induction l as [| y l IH]; [easy |]. intros [-> | H]; cbn [distinct].
  - destruct (existsb (sameNumber x) l) eqn:E; [| now left].
    apply existsb_exists in E. destruct E as [z [Hz S]].
    apply sameNumber_eq in S. subst z. now apply IH.
  - destruct (existsb (sameNumber y) l); [| right]; now apply IH.
Qed.

Lemma attributeOnlyScores_eq :
  attributeOnlyScores
  = distinct
      (map (fun x => Math_max 0 (Math_min 100 x))
           (afterEnum
              (afterBoolean
                 (afterBoolean (afterBoolean (afterBoolean [50])))))).
Proof. vm_compute. reflexivity. Qed.

Lemma afterBoolean_step (x : number) (totals : list number)
    (preference actualValue : option bool) :
  In x totals ->
  In (match preference with
      | Some _ => x + scoreBooleanAttribute preference actualValue
      | None => x
      end) (afterBoolean totals).
Proof.
  intros H. apply In_distinct, in_flat_map. exists x. split; [exact H |].
  destruct preference as [p |]; [| now left].
  destruct actualValue as [a |]; cbn [scoreBooleanAttribute];
    [| right; now left].
  destruct (Bool.eqb a p); cbn; auto.
Qed.

Lemma afterEnum_step (x : number) (totals : list number)
    (preference : option EnumPreference) (actualValue : option string) :
  In x totals ->
  In (match preference with
      | Some p =>
          if truthy p then x + scoreEnumAttribute preference actualValue
          else x
      | None => x
      end) (afterEnum totals).
Proof.
  intros H. apply In_distinct, in_flat_map. exists x. split; [exact H |].
  destruct preference as [p |]; [| now left].
  unfold scoreEnumAttribute.
  destruct (truthy p); cbn [negb]; [| now left].
  destruct actualValue as [a |]; [| right; now left].
  cbv zeta. destruct (Array_includes _ a); cbn; auto.
Qed.

Lemma attribute_only_score_listed (seeker candidate : Fruit) :
  noNumericPreference seeker ->
  In (calculateCompatibilityScore seeker candidate) attributeOnlyScores.
Proof.
  intros [S W]. rewrite attributeOnlyScores_eq. apply In_distinct.
  unfold calculateCompatibilityScore. rewrite S, W.
  apply (in_map (fun x => Math_max 0 (Math_min 100 x))).
  apply afterEnum_step. do 4 apply afterBoolean_step. now left.
Qed.

Lemma attributeOnlyScores_in_range :
  forallb in_range attributeOnlyScores = true.
Proof. vm_compute. reflexivity. Qed.

Lemma attributeOnlyScores_mutual_in_range :
  forallb (fun a =>
             forallb (fun b =>
                        in_range (Math_round (Math_sqrt (a * b) * 10) / 10))
                     attributeOnlyScores)
          attributeOnlyScores = true.
Proof. vm_compute. reflexivity. Qed.

Lemma attribute_only_in_range (seeker candidate : Fruit) :
  noNumericPreference seeker ->
  in_range (calculateCompatibilityScore seeker candidate) = true.
Proof.
  intros H.
  exact (proj1 (forallb_forall _ _) attributeOnlyScores_in_range _
           (attribute_only_score_listed seeker candidate H)).
Qed.

Lemma attribute_only_mutual_in_range (fruitA fruitB : Fruit) :
  noNumericPreference fruitA -> noNumericPreference fruitB ->
  in_range (calculateMutualScore fruitA fruitB) = true.
Proof.
  intros A B.
  pose proof (attribute_only_score_listed fruitA fruitB A) as Ia.
  pose proof (attribute_only_score_listed fruitB fruitA B) as Ib.
  pose proof (proj1 (forallb_forall _ _)
                attributeOnlyScores_mutual_in_range _ Ia) as F.
  cbv beta in F.
  exact (proj1 (forallb_forall _ _) F _ Ib).
Qed.

Lemma in_range_not_nan (x : number) : in_range x = true -> is_nan x = false.
Proof.
  unfold in_range. intros H. apply andb_prop in H.
  exact (proj2 (leb_not_nan _ _ (proj1 H))).
Qed.

(** X5: a seeker without [size] and [weight] preference scores every
    candidate with a number in [[0, 100]], never NaN: one of the 25 totals
    that boolean and [shineFactor] preferences can reach. *)
Theorem directional_score_without_numeric_preference
    (seeker candidate : Fruit) :
  noNumericPreference seeker ->
  in_range (calculateCompatibilityScore seeker candidate) = true /\
  In (calculateCompatibilityScore seeker candidate) attributeOnlyScores.
Proof.
  intros H. split.
  - now apply attribute_only_in_range.
  - now apply attribute_only_score_listed.
Qed.

Lemma directional_score_without_numeric_preference_witness :
  in_range (calculateCompatibilityScore (anApple wormFree)
              (anOrange "fruits:orange1" FruitPreferences.empty)) = true /\
  In (calculateCompatibilityScore (anApple wormFree)
        (anOrange "fruits:orange1" FruitPreferences.empty))
     attributeOnlyScores.
Proof.
  apply (directional_score_without_numeric_preference (anApple wormFree)).
  split; reflexivity.
Defined.

(** X6: when neither fruit has a [size] or [weight] preference, their mutual
    score is a number in [[0, 100]]. *)
Theorem mutual_score_without_numeric_preference (fruitA fruitB : Fruit) :
  noNumericPreference fruitA -> noNumericPreference fruitB ->
  in_range (calculateMutualScore fruitA fruitB) = true.
Proof. apply attribute_only_mutual_in_range. Qed.

Lemma mutual_score_without_numeric_preference_witness :
  in_range (calculateMutualScore (anApple wormFree)
              (anOrange "fruits:orange1" choosy)) = true.
Proof.
  apply mutual_score_without_numeric_preference; split; reflexivity.
Defined.

(** X7: when neither the seeker nor any candidate has a [size] or [weight]
    preference, the ranking is in descending order of mutual score and
    every mutual score in it lies in [[0, 100]]. *)
Theorem ranking_without_numeric_preference (seeker : Fruit)
    (candidates : list Fruit) (limit : nat) :
  noNumericPreference seeker ->
  (forall c, In c candidates -> noNumericPreference c) ->
  descending (map mutualScore (findTopMatches seeker candidates limit))
  = true /\
  (forall m, In m (findTopMatches seeker candidates limit) ->
             in_range (mutualScore m) = true).
Proof.
  intros S C.
  assert (R : forall c, In c candidates ->
                        in_range (calculateMutualScore seeker c) = true)
    by (intros c Hc; apply attribute_only_mutual_in_range; auto).
  split.
  - apply findTopMatches_ranking. intros c Hc.
    apply in_range_not_nan. now apply R.
  - intros m Hm. destruct (findTopMatches_In _ _ _ _ Hm) as [c [Hc ->]].
    exact (R c Hc).
Qed.

Lemma ranking_without_numeric_preference_witness :
  descending
    (map mutualScore
       (findTopMatches (anApple wormFree)
          [anOrange "fruits:orange1" FruitPreferences.empty;
           anOrange "fruits:orange2" choosy] 5)) = true.
Proof.
  apply (ranking_without_numeric_preference (anApple wormFree)).
  - split; reflexivity.
  - intros c [<- | [<- | []]]; split; reflexivity.
Defined.

(** ** The enum scorer and the pool of candidates *)

(** X8: a single non-empty string as [shineFactor] preference scores like
    the array that holds just that string; the empty string is no
    preference at all. *)
Theorem single_value_is_singleton_array (s : string)
    (actualValue : option string) :
  s <> ""%string ->
  scoreEnumAttribute (Some (Single s)) actualValue
  = scoreEnumAttribute (Some (Many [s])) actualValue /\
  scoreEnumAttribute (Some (Single "")) actualValue = 0.
Proof.
  intros H. unfold scoreEnumAttribute, truthy.
  destruct (String.eqb_spec s ""); [contradiction |].
  split; reflexivity.
Qed.

Lemma single_value_is_singleton_array_witness :
  scoreEnumAttribute (Some (Single "shiny")) (Some "dull"%string)
  = scoreEnumAttribute (Some (Many ["shiny"%string])) (Some "dull"%string).
Proof.
  apply (single_value_is_singleton_array "shiny" (Some "dull"%string)).
  discriminate.
Defined.

(** X9: when [limit] is not smaller than the pool, the ranking holds every
    candidate exactly once; and the [fruitId] of a record is never empty: it
    is the candidate's id when that is a non-empty string. *)
Theorem findTopMatches_covers_pool (seeker : Fruit)
    (candidates : list Fruit) (limit : nat) :
  (List.length candidates <= limit)%nat ->
  Permutation (map fruit (findTopMatches seeker candidates limit)) candidates
  /\
  (forall m, In m (findTopMatches seeker candidates limit) ->
             fruitId m <> ""%string /\
             (forall i, id (fruit m) = Some i -> i <> ""%string ->
                        fruitId m = i)).
Proof.
  intros L. split.
  - unfold findTopMatches, Array_slice0.
    rewrite firstn_all2
      by (now rewrite Array_sort_length, length_map).
    rewrite (Permutation_map fruit (Array_sort_Permutation _ _)).
    rewrite map_map. cbn [scoreMatch fruit]. now rewrite map_id.
  - intros m Hm. destruct (findTopMatches_In _ _ _ _ Hm) as [c [_ ->]].
    cbn [scoreMatch fruitId fruit].
    destruct (id c) as [i |]; [| split; [discriminate | discriminate]].
    destruct (String.eqb_spec i ""); split; try discriminate; try assumption.
    + intros j [= <-] N. contradiction.
    + intros j [= <-] _. reflexivity.
Qed.

Lemma findTopMatches_covers_pool_witness :
  Permutation
    (map fruit
       (findTopMatches (anApple wormFree)
          [anOrange "fruits:orange1" FruitPreferences.empty;
           anOrange "fruits:orange2" choosy] 5))
    [anOrange "fruits:orange1" FruitPreferences.empty;
     anOrange "fruits:orange2" choosy].
Proof.
  apply (findTopMatches_covers_pool (anApple wormFree)). simpl. lia.
Defined.

(** ** [findTopMatchesFromDB] *)

(** X10: [findTopMatchesFromDB] returns at most [limit] matches, none when
    the store delivers no rows, and each match is the record of a row that
    the store returned for the type that is not the seeker's. *)
Theorem findTopMatchesFromDB_from_the_other_type (db : Surreal)
    (seeker : Fruit) (limit : nat) :
  (List.length (findTopMatchesFromDB db seeker limit) <= limit)%nat /\
  (forall t, t <> type seeker -> db t = None \/ db t = Some [] ->
             findTopMatchesFromDB db seeker limit = []) /\
  (forall m, In m (findTopMatchesFromDB db seeker limit) ->
             exists t rows c,
               t <> type seeker /\ db t = Some rows /\ In c rows /\
               m = scoreMatch seeker c).
Proof.
  unfold findTopMatchesFromDB.
  set (o := match type seeker with apple => orange | orange => apple end).
  assert (O : o <> type seeker) by (subst o; now destruct (type seeker)).
  assert (U : forall t, t <> type seeker -> t = o)
    by (subst o; intros t; destruct t, (type seeker); congruence).
  split; [| split].
  - destruct (db o) as [rows |]; [| cbn; lia].
    destruct (List.length rows =? 0)%nat; [cbn; lia |].
    rewrite findTopMatches_length. lia.
  - intros t Ht [E | E]; rewrite (U t Ht) in E; now rewrite E.
  - intros m. destruct (db o) as [rows |] eqn:E; [| intros []].
    destruct (List.length rows =? 0)%nat; [intros [] |].
    intros H. destruct (findTopMatches_In _ _ _ _ H) as [c [Hc ->]].
    now exists o, rows, c.
Qed.

Lemma findTopMatchesFromDB_from_the_other_type_witness :
  findTopMatchesFromDB (tableStore [anApple wormFree])
    (anApple choosy) 5 = [].
Proof.
  apply (proj1 (proj2 (findTopMatchesFromDB_from_the_other_type
                         (tableStore [anApple wormFree]) (anApple choosy)
                         5)) orange).
  - discriminate.
  - right. reflexivity.
Defined.

(** X11: when the store honours the [WHERE] clause (the rows it returns for a
    type are of that type), every match is a fruit of the other type than
    the seeker's: the seeker is never matched with its own kind. *)
Theorem findTopMatchesFromDB_never_own_type (db : Surreal) (seeker : Fruit)
    (limit : nat) :
  (forall t rows f, db t = Some rows -> In f rows -> type f = t) ->
  forall m, In m (findTopMatchesFromDB db seeker limit) ->
            type (fruit m) <> type seeker.
Proof.
  intros W m H. unfold findTopMatchesFromDB in H.
  destruct (db _) as [rows |] eqn:E; [| destruct H].
  destruct (List.length rows =? 0)%nat; [destruct H |].
  destruct (findTopMatches_In _ _ _ _ H) as [c [Hc ->]].
  cbn [scoreMatch fruit]. rewrite (W _ _ _ E Hc).
  now destruct (type seeker).
Qed.

Lemma tableStore_honours_where (fruits : list Fruit) (t : FruitType)
    (rows : list Fruit) (f : Fruit) :
  tableStore fruits t = Some rows -> In f rows -> type f = t.
Proof.
  unfold tableStore. intros [= <-] H. apply filter_In in H.
  destruct H as [_ H]. now destruct (type f), t.
Qed.

Lemma findTopMatchesFromDB_never_own_type_witness :
  Forall (fun m => type (fruit m) <> apple)
    (findTopMatchesFromDB
       (tableStore [anApple wormFree; anOrange "fruits:orange1" choosy;
                    anOrange "fruits:orange2" wormFree])
       (anApple choosy) 5).
Proof.
  apply Forall_forall.
  apply (findTopMatchesFromDB_never_own_type
           (tableStore [anApple wormFree; anOrange "fruits:orange1" choosy;
                        anOrange "fruits:orange2" wormFree])
           (anApple choosy) 5).
  apply tableStore_honours_where.
Defined.

(** ** [generateMatchReasons] *)

Ltac float_let n :=
  match goal with
  | |- (let x := ?a in @?b x) = ?r =>
      change (let x := a in b x = r); intro n; cbv beta
  end.

Lemma generateMatchReasons_parts (toString : number -> string)
    (seeker : Fruit) (m : Match) :
  generateMatchReasons toString seeker m
  = rangeReason toString "Size "
      (FruitPreferences.size (preferences seeker))
      (FruitAttributes.size (attributes (fruit m)))
    ++ rangeReason toString "Weight "
         (FruitPreferences.weight (preferences seeker))
         (FruitAttributes.weight (attributes (fruit m)))
    ++ wormReason (FruitPreferences.hasWorm (preferences seeker))
                  (FruitAttributes.hasWorm (attributes (fruit m)))
    ++ booleanReason "Has a stem" "No stem"
         (FruitPreferences.hasStem (preferences seeker))
         (FruitAttributes.hasStem (attributes (fruit m)))
    ++ booleanReason "Has a leaf" "No leaf"
         (FruitPreferences.hasLeaf (preferences seeker))
         (FruitAttributes.hasLeaf (attributes (fruit m)))
    ++ booleanReason "Treated with chemicals" "Chemical-free"
         (FruitPreferences.hasChemicals (preferences seeker))
         (FruitAttributes.hasChemicals (attributes (fruit m)))
    ++ shineReason (FruitPreferences.shineFactor (preferences seeker))
                   (FruitAttributes.shineFactor (attributes (fruit m)))
    ++ [scoreLine toString m].
Proof.
  cbv beta delta [generateMatchReasons].
  float_let r0. float_let seekerPrefs. float_let matchAttrs.
  float_let r1. float_let r2. float_let r3. float_let r4. float_let r5.
  float_let r6. float_let r7.
  assert (E1 : r1 = rangeReason toString "Size "
                      (FruitPreferences.size seekerPrefs)
                      (FruitAttributes.size matchAttrs)).
  { subst r1 r0. unfold rangeReason.
    destruct (FruitPreferences.size seekerPrefs) as [[[mn |] [mx |]] |];
      destruct (FruitAttributes.size matchAttrs) as [v |]; cbn [min max];
      reflexivity. }
  clearbody r1.
  assert (E2 : r2 = r1 ++ rangeReason toString "Weight "
                      (FruitPreferences.weight seekerPrefs)
                      (FruitAttributes.weight matchAttrs)).
  { subst r2. unfold rangeReason.
    destruct (FruitPreferences.weight seekerPrefs) as [[[mn |] [mx |]] |];
      destruct (FruitAttributes.weight matchAttrs) as [v |]; cbn [min max];
      rewrite ?app_nil_r; try reflexivity.
    destruct ((mn <=? v) && (v <=? mx)); now rewrite ?app_nil_r. }
  clearbody r2.
  assert (E3 : r3 = r2 ++ wormReason (FruitPreferences.hasWorm seekerPrefs)
                                      (FruitAttributes.hasWorm matchAttrs)).
  { subst r3. unfold wormReason.
    destruct (FruitPreferences.hasWorm seekerPrefs) as [[|] |];
      destruct (FruitAttributes.hasWorm matchAttrs) as [[|] |];
      now rewrite ?app_nil_r. }
  clearbody r3.
  assert (E4 : r4 = r3 ++ booleanReason "Has a stem" "No stem"
                      (FruitPreferences.hasStem seekerPrefs)
                      (FruitAttributes.hasStem matchAttrs)).
  { subst r4. unfold booleanReason.
    destruct (FruitPreferences.hasStem seekerPrefs) as [p |];
      destruct (FruitAttributes.hasStem matchAttrs) as [a |];
      rewrite ?app_nil_r; try reflexivity.
    destruct (Bool.eqb a p); now rewrite ?app_nil_r. }
  clearbody r4.
  assert (E5 : r5 = r4 ++ booleanReason "Has a leaf" "No leaf"
                      (FruitPreferences.hasLeaf seekerPrefs)
                      (FruitAttributes.hasLeaf matchAttrs)).
  { subst r5. unfold booleanReason.
    destruct (FruitPreferences.hasLeaf seekerPrefs) as [p |];
      destruct (FruitAttributes.hasLeaf matchAttrs) as [a |];
      rewrite ?app_nil_r; try reflexivity.
    destruct (Bool.eqb a p); now rewrite ?app_nil_r. }
  clearbody r5.
  assert (E6 : r6 = r5 ++ booleanReason "Treated with chemicals"
                      "Chemical-free"
                      (FruitPreferences.hasChemicals seekerPrefs)
                      (FruitAttributes.hasChemicals matchAttrs)).
  { subst r6. unfold booleanReason.
    destruct (FruitPreferences.hasChemicals seekerPrefs) as [p |];
      destruct (FruitAttributes.hasChemicals matchAttrs) as [a |];
      rewrite ?app_nil_r; try reflexivity.
    destruct (Bool.eqb a p); now rewrite ?app_nil_r. }
  clearbody r6.
  assert (E7 : r7 = r6 ++ shineReason
                      (FruitPreferences.shineFactor seekerPrefs)
                      (FruitAttributes.shineFactor matchAttrs)).
  { subst r7. unfold shineReason.
    destruct (FruitPreferences.shineFactor seekerPrefs) as [p |];
      destruct (FruitAttributes.shineFactor matchAttrs) as [a |];
      rewrite ?app_nil_r; try reflexivity.
    destruct (truthy p && negb (String.eqb a "")); rewrite ?app_nil_r;
      [| reflexivity].
    cbv zeta.
    destruct (Array_includes _ a); now rewrite ?app_nil_r. }
  clearbody r7.
  subst. unfold scoreLine. now rewrite <- !app_assoc.
Qed.

Lemma attributeReasons_parts (toString : number -> string)
    (seeker : Fruit) (m : Match) :
  attributeReasons toString seeker m
  = rangeReason toString "Size "
      (FruitPreferences.size (preferences seeker))
      (FruitAttributes.size (attributes (fruit m)))
    ++ rangeReason toString "Weight "
         (FruitPreferences.weight (preferences seeker))
         (FruitAttributes.weight (attributes (fruit m)))
    ++ wormReason (FruitPreferences.hasWorm (preferences seeker))
                  (FruitAttributes.hasWorm (attributes (fruit m)))
    ++ booleanReason "Has a stem" "No stem"
         (FruitPreferences.hasStem (preferences seeker))
         (FruitAttributes.hasStem (attributes (fruit m)))
    ++ booleanReason "Has a leaf" "No leaf"
         (FruitPreferences.hasLeaf (preferences seeker))
         (FruitAttributes.hasLeaf (attributes (fruit m)))
    ++ booleanReason "Treated with chemicals" "Chemical-free"
         (FruitPreferences.hasChemicals (preferences seeker))
         (FruitAttributes.hasChemicals (attributes (fruit m)))
    ++ shineReason (FruitPreferences.shineFactor (preferences seeker))
                   (FruitAttributes.shineFactor (attributes (fruit m))).
Proof.
  unfold attributeReasons. rewrite generateMatchReasons_parts.
  rewrite !app_assoc. rewrite removelast_last. now rewrite <- !app_assoc.
Qed.

Lemma rangeReason_length (toString : number -> string) (label : string)
    (p : option NumericPreference) (v : option number) :
  (List.length (rangeReason toString label p v) <= 1)%nat.
Proof.
  unfold rangeReason.
  destruct p as [[[mn |] [mx |]] |]; destruct v as [v |]; cbn; try lia.
  destruct (_ && _); cbn; lia.
Qed.

Lemma wormReason_length (p a : option bool) :
  (List.length (wormReason p a) <= 1)%nat.
Proof. destruct p as [[|] |]; destruct a as [[|] |]; cbn; lia. Qed.

Lemma booleanReason_length (yes no : string) (p a : option bool) :
  (List.length (booleanReason yes no p a) <= 1)%nat.
Proof. destruct p as [[|] |]; destruct a as [[|] |]; cbn; lia. Qed.

Lemma shineReason_length (p : option EnumPreference) (a : option string) :
  (List.length (shineReason p a) <= 1)%nat.
Proof.
  unfold shineReason. destruct p as [p |]; destruct a as [a |]; cbn; try lia.
  destruct (_ && _); cbn; try lia.
  destruct (Array_includes _ a); cbn; lia.
Qed.

Lemma In_existsb_eqb (s : string) (l : list string) :
  In s l <-> existsb (String.eqb s) l = true.
Proof.
  rewrite existsb_exists. split.
  - intros H. exists s. split; [exact H | apply String.eqb_refl].
  - intros [x [H E]]. apply String.eqb_eq in E. now subst.
Qed.

Lemma rangeReason_test (f : string -> bool) (toString : number -> string)
    (label : string) (p : option NumericPreference) (v : option number) :
  (forall rest, f (label ++ rest)%string = false) ->
  existsb f (rangeReason toString label p v) = false.
Proof.
  intros H. unfold rangeReason.
  destruct p as [[[mn |] [mx |]] |]; destruct v as [v |]; try reflexivity.
  cbn [min max]. destruct (_ && _); [| reflexivity].
  cbn [existsb]. now rewrite H.
Qed.

Lemma wormReason_test (f : string -> bool) (p a : option bool) :
  f "Worm-free as preferred"%string = false ->
  existsb f (wormReason p a) = false.
Proof.
  intros H. destruct p as [[|] |]; destruct a as [[|] |]; try reflexivity.
  cbn. now rewrite H.
Qed.

Lemma booleanReason_test (f : string -> bool) (yes no : string)
    (p a : option bool) :
  f yes = false -> f no = false ->
  existsb f (booleanReason yes no p a) = false.
Proof.
  intros Y N. destruct p as [[|] |]; destruct a as [[|] |]; try reflexivity;
    cbn; now rewrite ?Y, ?N.
Qed.

Lemma shineReason_test (f : string -> bool) (p : option EnumPreference)
    (a : option string) :
  (forall rest, f ("Shine factor (" ++ rest)%string = false) ->
  existsb f (shineReason p a) = false.
Proof.
  intros H. unfold shineReason.
  destruct p as [p |]; destruct a as [a |]; try reflexivity.
  destruct (_ && _); [| reflexivity].
  destruct (Array_includes _ a); [| reflexivity].
  cbn [existsb]. now rewrite H.
Qed.

Lemma prefix_append (a b : string) : String.prefix a (a ++ b) = true.
Proof.
  induction a as [| c a IH]; cbn; [now destruct b |].
  destruct (Ascii.ascii_dec c c); [exact IH | contradiction].
Qed.

Lemma eqb_false_neq (x y : number) :
  (y =? y) = true -> (x =? y) = false -> x <> y.
Proof. intros R H E. subst. congruence. Qed.

Lemma scoreBooleanAttribute_bonus (p a : option bool) :
  scoreBooleanAttribute p a = 15 <-> exists b, p = Some b /\ a = Some b.
Proof.
  split.
  - destruct p as [p |]; destruct a as [a |]; cbn [scoreBooleanAttribute];
      try (intros E; now apply eqb_false_neq in E).
    destruct (Bool.eqb a p) eqn:B;
      [| intros E; now apply eqb_false_neq in E].
    intros _. exists p. now rewrite (eqb_prop _ _ B).
  - intros [b [-> ->]]. cbn. now rewrite eqb_reflx.
Qed.

Lemma scoreBooleanAttribute_bonus_cases (p a : option bool) :
  scoreBooleanAttribute p a = 15 <->
  (p = Some true /\ a = Some true) \/ (p = Some false /\ a = Some false).
Proof.
  rewrite scoreBooleanAttribute_bonus. split.
  - intros [[|] [-> ->]]; auto.
  - intros [[-> ->] | [-> ->]]; eauto.
Qed.

Lemma scoreEnumAttribute_bonus (p : option EnumPreference)
    (a : option string) :
  scoreEnumAttribute p a = 12 <->
  exists q v, p = Some q /\ a = Some v /\ truthy q = true /\
              Array_includes (match q with Many l => l | Single s => [s] end)
                             v = true.
Proof.
  unfold scoreEnumAttribute. split.
  - destruct p as [q |]; [| intros E; now apply eqb_false_neq in E].
    destruct (truthy q) eqn:T; cbn [negb];
      [| intros E; now apply eqb_false_neq in E].
    destruct a as [v |]; [| intros E; now apply eqb_false_neq in E].
    cbv zeta. destruct (Array_includes _ v) eqn:I;
      [| intros E; now apply eqb_false_neq in E].
    intros _. now exists q, v.
  - intros [q [v [-> [-> [T I]]]]]. rewrite T. cbn [negb]. cbv zeta.
    now rewrite I.
Qed.

Lemma In_rangeReason (toString : number -> string) (label s : string)
    (p : option NumericPreference) (v : option number) :
  In s (rangeReason toString label p v) ->
  exists rest, s = (label ++ rest)%string.
Proof.
  unfold rangeReason.
  destruct p as [[[mn |] [mx |]] |]; destruct v as [v |]; try (intros []).
  cbn [min max]. destruct (_ && _); [| intros []].
  intros [<- | []]. eexists. reflexivity.
Qed.

Lemma In_shineReason (s : string) (p : option EnumPreference)
    (a : option string) :
  In s (shineReason p a) ->
  exists rest, s = ("Shine factor (" ++ rest)%string.
Proof.
  unfold shineReason.
  destruct p as [p |]; destruct a as [a |]; try (intros []).
  destruct (_ && _); [| intros []].
  destruct (Array_includes _ a); [| intros []].
  intros [<- | []]. eexists. reflexivity.
Qed.

Lemma In_wormReason (s : string) (p a : option bool) :
  In s (wormReason p a) <->
  s = "Worm-free as preferred"%string /\ p = Some false /\ a = Some false.
Proof.
  destruct p as [[|] |]; destruct a as [[|] |]; cbn; split;
    try (intros H0; contradiction H0); try (intros [_ [H1 H2]]; congruence).
  - intros [<- | []]. auto.
  - intros [-> _]. now left.
Qed.

Lemma In_booleanReason (s yes no : string) (p a : option bool) :
  In s (booleanReason yes no p a) <->
  (s = yes /\ p = Some true /\ a = Some true) \/
  (s = no /\ p = Some false /\ a = Some false).
Proof.
  destruct p as [[|] |]; destruct a as [[|] |]; cbn; split;
    try (intros H0; contradiction H0);
    try (intros [[_ [H1 H2]] | [_ [H1 H2]]]; congruence).
  - intros [<- | []]. auto.
  - intros [[-> _] | [_ [H _]]]; [now left | discriminate H].
  - intros [<- | []]. auto.
  - intros [[_ [H _]] | [-> _]]; [discriminate H | now left].
Qed.

(** An attribute reason that is none of the three formatted ones is one of
    the seven fixed texts, each with its condition. *)
Lemma In_attributeReasons_fixed (toString : number -> string)
    (seeker : Fruit) (m : Match) (s : string) :
  (forall rest, s <> ("Size " ++ rest)%string) ->
  (forall rest, s <> ("Weight " ++ rest)%string) ->
  (forall rest, s <> ("Shine factor (" ++ rest)%string) ->
  (In s (attributeReasons toString seeker m) <->
   In s (wormReason (FruitPreferences.hasWorm (preferences seeker))
                    (FruitAttributes.hasWorm (attributes (fruit m)))) \/
   In s (booleanReason "Has a stem" "No stem"
           (FruitPreferences.hasStem (preferences seeker))
           (FruitAttributes.hasStem (attributes (fruit m)))) \/
   In s (booleanReason "Has a leaf" "No leaf"
           (FruitPreferences.hasLeaf (preferences seeker))
           (FruitAttributes.hasLeaf (attributes (fruit m)))) \/
   In s (booleanReason "Treated with chemicals" "Chemical-free"
           (FruitPreferences.hasChemicals (preferences seeker))
           (FruitAttributes.hasChemicals (attributes (fruit m))))).
Proof.
  intros A B C. rewrite attributeReasons_parts, !in_app_iff. split.
  - intros [H | [H | [H | [H | [H | [H | H]]]]]]; auto.
    + apply In_rangeReason in H. destruct H as [rest E]. now apply A in E.
    + apply In_rangeReason in H. destruct H as [rest E]. now apply B in E.
    + apply In_shineReason in H. destruct H as [rest E]. now apply C in E.
  - intros [H | [H | [H | H]]]; auto 8.
Qed.

Lemma mentions_parts (prefix : string) (toString : number -> string)
    (seeker : Fruit) (m : Match) :
  String.prefix prefix "Worm-free as preferred" = false ->
  String.prefix prefix "Has a stem" = false ->
  String.prefix prefix "No stem" = false ->
  String.prefix prefix "Has a leaf" = false ->
  String.prefix prefix "No leaf" = false ->
  String.prefix prefix "Treated with chemicals" = false ->
  String.prefix prefix "Chemical-free" = false ->
  mentions prefix (attributeReasons toString seeker m)
  = mentions prefix
      (rangeReason toString "Size "
         (FruitPreferences.size (preferences seeker))
         (FruitAttributes.size (attributes (fruit m))))
    || mentions prefix
         (rangeReason toString "Weight "
            (FruitPreferences.weight (preferences seeker))
            (FruitAttributes.weight (attributes (fruit m))))
    || mentions prefix
         (shineReason (FruitPreferences.shineFactor (preferences seeker))
            (FruitAttributes.shineFactor (attributes (fruit m)))).
Proof.
  intros W S1 S2 L1 L2 C1 C2. unfold mentions.
  rewrite attributeReasons_parts, !existsb_app.
  rewrite wormReason_test, !booleanReason_test by assumption.
  cbn [orb]. now rewrite orb_assoc.
Qed.

Lemma mentions_rangeReason (toString : number -> string) (label : string)
    (p : option NumericPreference) (v : option number) :
  mentions label (rangeReason toString label p v) = withinBothBounds p v.
Proof.
  unfold mentions, rangeReason, withinBothBounds.
  destruct p as [[[mn |] [mx |]] |]; destruct v as [v |]; try reflexivity.
  cbn [min max]. destruct (_ && _); [| reflexivity].
  cbn [existsb]. now rewrite prefix_append.
Qed.

Lemma withinBothBounds_not_out (p : NumericPreference) (v : number) :
  withinBothBounds (Some p) (Some v) = true -> outOfRange p v = false.
Proof.
  unfold withinBothBounds, outOfRange.
  destruct (min p) as [mn |]; [| discriminate].
  destruct (max p) as [mx |]; [| discriminate].
  intros H. apply andb_prop in H. destruct H as [L U].
  now rewrite (leb_not_ltb _ _ L), (leb_not_ltb _ _ U).
Qed.

Lemma mentions_shineReason (p : option EnumPreference) (a : option string) :
  mentions "Shine factor (" (shineReason p a) = true <->
  scoreEnumAttribute p a = 12 /\ a <> Some ""%string.
Proof.
  rewrite scoreEnumAttribute_bonus. unfold mentions, shineReason. split.
  - destruct p as [q |]; destruct a as [v |]; try discriminate.
    destruct (truthy q) eqn:T; [| discriminate].
    destruct (String.eqb_spec v ""); [discriminate |]. cbn [negb andb].
    destruct (Array_includes _ v) eqn:I; [| discriminate].
    intros _. split; [now exists q, v | congruence].
  - intros [[q [v [-> [-> [T I]]]]] N]. rewrite T, I.
    destruct (String.eqb_spec v ""); [subst; contradiction |].
    cbn [andb negb existsb]. now rewrite prefix_append.
Qed.

(** X12: the reasons are never empty: they end with the score line, in front
    of which there are at most seven attribute reasons; a seeker without
    preferences gets the score line alone. *)
Theorem generateMatchReasons_shape (toString : number -> string)
    (seeker : Fruit) (m : Match) :
  generateMatchReasons toString seeker m
  = attributeReasons toString seeker m
    ++ [(toString (mutualScore m) ++ "% mutual compatibility score")%string]
  /\
  (List.length (attributeReasons toString seeker m) <= 7)%nat /\
  (preferences seeker = FruitPreferences.empty ->
   attributeReasons toString seeker m = []).
Proof.
  split; [| split].
  - rewrite attributeReasons_parts, generateMatchReasons_parts.
    now rewrite <- !app_assoc.
  - rewrite attributeReasons_parts, !length_app.
    pose proof (rangeReason_length toString "Size "
                  (FruitPreferences.size (preferences seeker))
                  (FruitAttributes.size (attributes (fruit m)))).
    pose proof (rangeReason_length toString "Weight "
                  (FruitPreferences.weight (preferences seeker))
                  (FruitAttributes.weight (attributes (fruit m)))).
    pose proof (wormReason_length
                  (FruitPreferences.hasWorm (preferences seeker))
                  (FruitAttributes.hasWorm (attributes (fruit m)))).
    pose proof (booleanReason_length "Has a stem" "No stem"
                  (FruitPreferences.hasStem (preferences seeker))
                  (FruitAttributes.hasStem (attributes (fruit m)))).
    pose proof (booleanReason_length "Has a leaf" "No leaf"
                  (FruitPreferences.hasLeaf (preferences seeker))
                  (FruitAttributes.hasLeaf (attributes (fruit m)))).
    pose proof (booleanReason_length "Treated with chemicals"
                  "Chemical-free"
                  (FruitPreferences.hasChemicals (preferences seeker))
                  (FruitAttributes.hasChemicals (attributes (fruit m)))).
    pose proof (shineReason_length
                  (FruitPreferences.shineFactor (preferences seeker))
                  (FruitAttributes.shineFactor (attributes (fruit m)))).
    lia.
  - intros E. rewrite attributeReasons_parts, E. reflexivity.
Qed.

Lemma generateMatchReasons_shape_witness :
  attributeReasons (fun _ => "50"%string) (anApple FruitPreferences.empty)
    (scoreMatch (anApple FruitPreferences.empty)
       (anOrange "fruits:orange1" choosy)) = [].
Proof.
  apply (generateMatchReasons_shape (fun _ => "50"%string)
           (anApple FruitPreferences.empty)).
  reflexivity.
Defined.

(** X13: "Has a stem" or "No stem" is among the attribute reasons exactly
    when the boolean scorer awards +15 for [hasStem]: "Has a stem" when
    both the preference and the attribute are [true], "No stem" when both
    are [false]; likewise for [hasLeaf] and [hasChemicals]. *)
Theorem boolean_reasons_iff_bonus (toString : number -> string)
    (seeker : Fruit) (m : Match) :
  let reasons := attributeReasons toString seeker m in
  let prefs := preferences seeker in
  let attrs := attributes (fruit m) in
  ((In "Has a stem"%string reasons \/ In "No stem"%string reasons) <->
   scoreBooleanAttribute (FruitPreferences.hasStem prefs)
                         (FruitAttributes.hasStem attrs) = 15) /\
  ((In "Has a leaf"%string reasons \/ In "No leaf"%string reasons) <->
   scoreBooleanAttribute (FruitPreferences.hasLeaf prefs)
                         (FruitAttributes.hasLeaf attrs) = 15) /\
  ((In "Treated with chemicals"%string reasons \/
    In "Chemical-free"%string reasons) <->
   scoreBooleanAttribute (FruitPreferences.hasChemicals prefs)
                         (FruitAttributes.hasChemicals attrs) = 15) /\
  (In "Has a stem"%string reasons <->
   FruitPreferences.hasStem prefs = Some true /\
   FruitAttributes.hasStem attrs = Some true) /\
  (In "Has a leaf"%string reasons <->
   FruitPreferences.hasLeaf prefs = Some true /\
   FruitAttributes.hasLeaf attrs = Some true) /\
  (In "Treated with chemicals"%string reasons <->
   FruitPreferences.hasChemicals prefs = Some true /\
   FruitAttributes.hasChemicals attrs = Some true).
Proof.
  intros reasons prefs attrs. subst reasons.
  rewrite !In_attributeReasons_fixed
    by (intros rest E; cbn in E; discriminate E).
  rewrite !scoreBooleanAttribute_bonus_cases, !In_wormReason,
    !In_booleanReason.
  repeat apply conj; intros K; decompose [and or] K; try discriminate;
    auto 10.
Qed.

(** X14: "Worm-free as preferred" is an attribute reason exactly when the
    seeker prefers no worm and the fruit has none; a seeker who prefers a
    worm and gets one earns the same +15 without any reason being listed. *)
Theorem worm_reason_only_for_absence (toString : number -> string)
    (seeker : Fruit) (m : Match) :
  let reasons := attributeReasons toString seeker m in
  let preference := FruitPreferences.hasWorm (preferences seeker) in
  let actualValue := FruitAttributes.hasWorm (attributes (fruit m)) in
  (In "Worm-free as preferred"%string reasons <->
   preference = Some false /\ actualValue = Some false) /\
  (preference = Some true -> actualValue = Some true ->
   scoreBooleanAttribute preference actualValue = 15 /\
   ~ In "Worm-free as preferred"%string reasons).
Proof.
  intros reasons preference actualValue. subst reasons.
  rewrite In_attributeReasons_fixed
    by (intros rest E; cbn in E; discriminate E).
  rewrite In_wormReason, !In_booleanReason.
  fold preference actualValue.
  match goal with
  | |- (?L <-> ?R) /\ _ => assert (I : L <-> R)
  end.
  { apply conj; intros K; decompose [and or] K; try discriminate; auto. }
  split; [exact I |]. intros P A. split; [now rewrite P, A |].
  rewrite I, P. intros [K _]. discriminate K.
Qed.

(** X15: a size reason (an entry that starts with "Size ") is listed exactly
    when the [size] preference has both bounds and the fruit's size lies
    between them, and the same for the weight; a preference with one bound
    never yields a reason.  When a value is within both bounds the numeric
    scorer does not return the penalty -20. *)
Theorem range_reason_iff_within_both_bounds (toString : number -> string)
    (seeker : Fruit) (m : Match) :
  let reasons := attributeReasons toString seeker m in
  let prefs := preferences seeker in
  let attrs := attributes (fruit m) in
  mentions "Size " reasons
  = withinBothBounds (FruitPreferences.size prefs)
                     (FruitAttributes.size attrs) /\
  mentions "Weight " reasons
  = withinBothBounds (FruitPreferences.weight prefs)
                     (FruitAttributes.weight attrs) /\
  (forall p v, withinBothBounds (Some p) (Some v) = true ->
               scoreNumericAttribute (Some p) (Some v) <> -20).
Proof.
  intros reasons prefs attrs. subst reasons. split; [| split].
  - rewrite mentions_parts by reflexivity. rewrite mentions_rangeReason.
    unfold mentions at 1 2.
    rewrite rangeReason_test, shineReason_test by (intros; reflexivity).
    now rewrite !orb_false_r.
  - rewrite mentions_parts by reflexivity. rewrite mentions_rangeReason.
    unfold mentions.
    rewrite rangeReason_test, shineReason_test by (intros; reflexivity).
    now rewrite orb_false_r.
  - intros p v H E. apply withinBothBounds_not_out in H.
    destruct (minus_20_negative _ E) as [N P].
    destruct (numeric_within_nonneg p v H); congruence.
Qed.

(** X16: a shine reason (an entry that starts with "Shine factor (") is
    listed exactly when the enum scorer awards +12 for [shineFactor] and
    the fruit's shine factor is not the empty string. *)
Theorem shine_reason_iff_bonus (toString : number -> string)
    (seeker : Fruit) (m : Match) :
  mentions "Shine factor (" (attributeReasons toString seeker m) = true <->
  scoreEnumAttribute (FruitPreferences.shineFactor (preferences seeker))
                     (FruitAttributes.shineFactor (attributes (fruit m)))
  = 12 /\
  FruitAttributes.shineFactor (attributes (fruit m)) <> Some ""%string.
Proof.
  rewrite <- mentions_shineReason.
  rewrite mentions_parts by reflexivity.
  unfold mentions at 1 2.
  rewrite !rangeReason_test by (intros; reflexivity).
  reflexivity.
Qed.

(** ** [convertNullToUndefined] *)

Lemma setProperty_new (key : string) (value : JSValue)
    (properties : list (string * JSValue)) :
  existsb (String.eqb key) (map fst properties) = false ->
  setProperty key value properties = properties ++ [(key, value)].
Proof.
  induction properties as [| [k v] rest IH]; [reflexivity |].
  cbn [map fst existsb setProperty]. intros H.
  apply orb_false_elim in H. destruct H as [N H].
  rewrite String.eqb_sym, N. cbn [app]. now rewrite IH.
Qed.

Lemma existsb_app_false (key : string) (a b : list string) :
  existsb (String.eqb key) (a ++ b) = false <->
  existsb (String.eqb key) a = false /\ existsb (String.eqb key) b = false.
Proof. rewrite existsb_app. apply orb_false_iff. Qed.

(** Assigning properties with distinct keys that the result does not hold
    yet appends them in order. *)
Lemma assign_distinct (g : string * JSValue -> JSValue)
    (properties result : list (string * JSValue)) :
  distinctKeys (map fst properties) = true ->
  (forall k, In k (map fst properties) ->
             existsb (String.eqb k) (map fst result) = false) ->
  fold_left (fun result kv => setProperty (fst kv) (g kv) result)
            properties result
  = result ++ map (fun kv => (fst kv, g kv)) properties.
Proof.
  revert result. induction properties as [| [k v] rest IH]; intros result D F.
  - cbn. now rewrite app_nil_r.
  - cbn [map fst distinctKeys] in D. apply andb_prop in D.
    destruct D as [N D]. apply negb_true_iff in N.
    cbn [fold_left map fst].
    rewrite setProperty_new by (apply F; now left).
    rewrite IH; [now rewrite <- app_assoc | exact D |].
    intros k' Hk'. rewrite map_app. apply existsb_app_false. split.
    + apply F. now right.
    + cbn. rewrite orb_false_r.
      destruct (String.eqb_spec k' k); [| reflexivity]. subst k'.
      apply In_existsb_eqb in Hk'. congruence.
Qed.

Lemma convert_object_distinct (properties : list (string * JSValue)) :
  distinctKeys (map fst properties) = true ->
  convertNullToUndefined (JObject properties)
  = JObject (map convertProperty properties).
Proof.
  intros D. cbn [convertNullToUndefined]. f_equal.
  now rewrite (assign_distinct (fun kv => convertNullToUndefined (snd kv)))
    by (try assumption; reflexivity).
Qed.

Lemma setProperty_forallb (f : string * JSValue -> bool) (key : string)
    (value : JSValue) (properties : list (string * JSValue)) :
  (forall k, f (k, value) = true) -> forallb f properties = true ->
  forallb f (setProperty key value properties) = true.
Proof.
  intros V. induction properties as [| [k v] rest IH]; cbn.
  - intros _. now rewrite V.
  - intros H. apply andb_prop in H. destruct H as [H1 H2].
    destruct (String.eqb k key); cbn; rewrite ?V, ?H1, ?H2, ?IH;
      reflexivity || assumption.
Qed.

Lemma assign_forallb (f : string * JSValue -> bool)
    (g : string * JSValue -> JSValue)
    (properties result : list (string * JSValue)) :
  Forall (fun kv => forall k, f (k, g kv) = true) properties ->
  forallb f result = true ->
  forallb f (fold_left (fun result kv => setProperty (fst kv) (g kv) result)
                       properties result) = true.
Proof.
  intros H. revert result.
  induction H as [| kv rest Hkv _ IH]; intros result R; [exact R |].
  cbn [fold_left]. apply IH. now apply setProperty_forallb.
Qed.

Lemma setProperty_keys (key : string) (value : JSValue)
    (properties : list (string * JSValue)) :
  map fst (setProperty key value properties)
  = if existsb (String.eqb key) (map fst properties)
    then map fst properties else map fst properties ++ [key].
Proof.
  induction properties as [| [k v] rest IH]; [reflexivity |].
  cbn [setProperty map fst existsb]. rewrite (String.eqb_sym key k).
  destruct (String.eqb k key); [reflexivity |].
  cbn [map fst orb]. rewrite IH.
  now destruct (existsb (String.eqb key) (map fst rest)).
Qed.

Lemma distinctKeys_snoc (keys : list string) (key : string) :
  distinctKeys keys = true -> existsb (String.eqb key) keys = false ->
  distinctKeys (keys ++ [key]) = true.
Proof.
  induction keys as [| k rest IH]; [reflexivity |].
  cbn [distinctKeys existsb app]. intros D N.
  apply andb_prop in D. destruct D as [D1 D2].
  apply orb_false_elim in N. destruct N as [N1 N2].
  rewrite IH by assumption. rewrite existsb_app. cbn [existsb].
  apply negb_true_iff in D1. rewrite D1, String.eqb_sym, N1. reflexivity.
Qed.

Lemma assign_distinctKeys (g : string * JSValue -> JSValue)
    (properties result : list (string * JSValue)) :
  distinctKeys (map fst result) = true ->
  distinctKeys
    (map fst (fold_left (fun result kv => setProperty (fst kv) (g kv) result)
                        properties result)) = true.
Proof.
  revert result. induction properties as [| kv rest IH]; intros result D;
    [exact D |].
  cbn [fold_left]. apply IH. rewrite setProperty_keys.
  destruct (existsb _ _) eqn:E; [exact D |]. now apply distinctKeys_snoc.
Qed.

Lemma forallb_map_compose {A B : Type} (f : B -> bool) (g : A -> B)
    (l : list A) :
  forallb f (map g l) = forallb (fun x => f (g x)) l.
Proof.
  induction l as [| x l IH]; [reflexivity |]. cbn. now rewrite IH.
Qed.

Lemma convert_nullFree (v : JSValue) :
  nullFree (convertNullToUndefined v) = true.
Proof.
  induction v as [| | b | n | s | items IH | properties IH]
    using JSValue_induction; try reflexivity.
  - cbn. rewrite forallb_map_compose. apply forallb_forall. intros x Hx.
    exact (proj1 (Forall_forall _ _) IH x Hx).
  - cbn [convertNullToUndefined nullFree].
    apply (assign_forallb (fun kv => nullFree (snd kv))
             (fun kv => convertNullToUndefined (snd kv)));
      [| reflexivity].
    apply Forall_forall. intros kv Hkv k. cbn [snd].
    exact (proj1 (Forall_forall _ _) IH kv Hkv).
Qed.

Lemma convert_wellFormed (v : JSValue) :
  wellFormed (convertNullToUndefined v) = true.
Proof.
  induction v as [| | b | n | s | items IH | properties IH]
    using JSValue_induction; try reflexivity.
  - cbn. rewrite forallb_map_compose. apply forallb_forall. intros x Hx.
    exact (proj1 (Forall_forall _ _) IH x Hx).
  - cbn [convertNullToUndefined wellFormed]. apply andb_true_intro. split.
    + now apply assign_distinctKeys.
    + apply (assign_forallb (fun kv => wellFormed (snd kv))
               (fun kv => convertNullToUndefined (snd kv)));
        [| reflexivity].
      apply Forall_forall. intros kv Hkv k. cbn [snd].
      exact (proj1 (Forall_forall _ _) IH kv Hkv).
Qed.

Lemma convert_fixed (v : JSValue) :
  wellFormed v = true -> nullFree v = true -> convertNullToUndefined v = v.
Proof.
  induction v as [| | b | n | s | items IH | properties IH]
    using JSValue_induction; try reflexivity; try discriminate.
  - cbn [wellFormed nullFree convertNullToUndefined]. intros W N. f_equal.
    rewrite <- (map_id items) at 2. apply map_ext_in. intros x Hx.
    apply (proj1 (Forall_forall _ _) IH x Hx).
    + exact (proj1 (forallb_forall _ _) W x Hx).
    + exact (proj1 (forallb_forall _ _) N x Hx).
  - intros W N. cbn [wellFormed] in W. apply andb_prop in W.
    destruct W as [D W]. cbn [nullFree] in N.
    rewrite convert_object_distinct by exact D. f_equal.
    rewrite <- (map_id properties) at 2. apply map_ext_in.
    intros [k x] Hx. unfold convertProperty. cbn [fst snd]. f_equal.
    apply (proj1 (Forall_forall _ _) IH (k, x) Hx).
    + exact (proj1 (forallb_forall _ _) W (k, x) Hx).
    + exact (proj1 (forallb_forall _ _) N (k, x) Hx).
Qed.

(** X17: the result of [convertNullToUndefined] holds no [null], at any depth
    of arrays and objects. *)
Theorem convertNullToUndefined_leaves_no_null (obj : JSValue) :
  nullFree (convertNullToUndefined obj) = true.
Proof. apply convert_nullFree. Qed.

(** X18: converting twice is converting once. *)
Theorem convertNullToUndefined_idempotent (obj : JSValue) :
  convertNullToUndefined (convertNullToUndefined obj)
  = convertNullToUndefined obj.
Proof.
  apply convert_fixed; [apply convert_wellFormed | apply convert_nullFree].
Qed.

(** X19: a value without [null] is returned as it is (a copy with the same
    content). *)
Theorem convertNullToUndefined_keeps_null_free (obj : JSValue) :
  wellFormed obj = true -> nullFree obj = true ->
  convertNullToUndefined obj = obj.
Proof. apply convert_fixed. Qed.

Lemma convertNullToUndefined_keeps_null_free_witness :
  convertNullToUndefined
    (JObject [("type", JString "apple");
              ("attributes", JObject [("size", JNumber 7)]);
              ("tags", JArray [JBoolean true; JUndefined])]%string)
  = JObject [("type", JString "apple");
             ("attributes", JObject [("size", JNumber 7)]);
             ("tags", JArray [JBoolean true; JUndefined])]%string.
Proof.
  apply convertNullToUndefined_keeps_null_free; reflexivity.
Defined.

(** X20: on an object the function keeps the keys and their order and
    converts each property value; nothing is dropped and nothing added. *)
Theorem convertNullToUndefined_keeps_keys
    (properties : list (string * JSValue)) :
  distinctKeys (map fst properties) = true ->
  convertNullToUndefined (JObject properties)
  = JObject (map (fun kv => (fst kv, convertNullToUndefined (snd kv)))
                 properties).
Proof. apply convert_object_distinct. Qed.

Lemma convertNullToUndefined_keeps_keys_witness :
  convertNullToUndefined orangeData
  = JObject
      [("type", JString "orange");
       ("attributes",
        JObject [("size", JUndefined); ("weight", JNumber 180);
                 ("hasStem", JBoolean true); ("shineFactor", JUndefined)]);
       ("preferences",
        JObject [("hasWorm", JBoolean false);
                 ("shineFactor", JArray [JString "shiny"; JUndefined])])
      ]%string.
Proof.
  unfold orangeData. rewrite convertNullToUndefined_keeps_keys; reflexivity.
Defined.

(** ** [MatchCard] *)

Lemma labelRank_qualityLabel (s : number) :
  labelRank (qualityLabel s)
  = if 80 <=? s then 3%nat else if 60 <=? s then 2%nat
    else if 40 <=? s then 1%nat else 0%nat.
Proof.
  unfold qualityLabel, MatchCard_quality.
  destruct (80 <=? s); [reflexivity |].
  destruct (60 <=? s); [reflexivity |].
  now destruct (40 <=? s).
Qed.

Lemma labelRank_monotone (a b : number) :
  (a <=? b) = true ->
  (labelRank (qualityLabel a) <= labelRank (qualityLabel b))%nat.
Proof.
  intros H. rewrite !labelRank_qualityLabel.
  assert (T : forall t, (t <=? a) = true -> (t <=? b) = true)
    by (intros t Ht; exact (leb_trans _ _ _ Ht H)).
  destruct (80 <=? a) eqn:A8; [now rewrite (T _ A8) |].
  destruct (60 <=? a) eqn:A6;
    [rewrite (T _ A6); destruct (80 <=? b); lia |].
  destruct (40 <=? a) eqn:A4;
    [rewrite (T _ A4); destruct (80 <=? b); destruct (60 <=? b); lia |].
  lia.
Qed.

Lemma descending_nonIncreasing (l : list number) :
  descending l = true ->
  nonIncreasing (map (fun s => labelRank (qualityLabel s)) l) = true.
Proof.
  induction l as [| x [| y l] IH]; try reflexivity.
  intros H. change (descending (x :: y :: l))
    with ((y <=? x) && descending (y :: l)) in H.
  apply andb_prop in H. destruct H as [L D].
  change (nonIncreasing (map (fun s => labelRank (qualityLabel s))
                             (x :: y :: l)))
    with ((labelRank (qualityLabel y) <=? labelRank (qualityLabel x))%nat
          && nonIncreasing (map (fun s => labelRank (qualityLabel s))
                                (y :: l))).
  rewrite (IH D), andb_true_r. apply Nat.leb_le.
  now apply labelRank_monotone.
Qed.

(** X21: a higher mutual score never gets a worse quality label. *)
Theorem qualityLabel_monotone (a b : number) :
  (a <=? b) = true ->
  (labelRank (qualityLabel a) <= labelRank (qualityLabel b))%nat.
Proof. apply labelRank_monotone. Qed.

Lemma qualityLabel_monotone_witness :
  (labelRank (qualityLabel 59.5%float)
   <= labelRank (qualityLabel 60%float))%nat.
Proof. apply qualityLabel_monotone. reflexivity. Defined.

(** X22: the card shows "Potential Match" exactly when the mutual score is
    below 40 or NaN. *)
Theorem potential_match_iff_below_40_or_nan (mutualScore : number) :
  qualityLabel mutualScore = "Potential Match"%string <->
  is_nan mutualScore = true \/ (mutualScore <? 40) = true.
Proof.
  unfold qualityLabel, MatchCard_quality. split.
  - destruct (80 <=? mutualScore); [discriminate |].
    destruct (60 <=? mutualScore); [discriminate |].
    destruct (40 <=? mutualScore) eqn:E; [discriminate |]. intros _.
    destruct (is_nan mutualScore) eqn:N; [now left | right].
    destruct (mutualScore <? 40) eqn:L; [reflexivity |].
    rewrite (not_ltb_leb mutualScore 40 N eq_refl L) in E. discriminate E.
  - intros H.
    assert (E : (40 <=? mutualScore) = false).
    { destruct (40 <=? mutualScore) eqn:E; [| reflexivity].
      destruct (leb_not_nan _ _ E) as [_ N].
      pose proof (leb_not_ltb _ _ E) as L.
      destruct H; congruence. }
    assert (T : forall t, (40 <=? t) = true -> (t <=? mutualScore) = false).
    { intros t Ht. destruct (t <=? mutualScore) eqn:K; [| reflexivity].
      rewrite (leb_trans _ _ _ Ht K) in E. discriminate E. }
    now rewrite (T 80 eq_refl), (T 60 eq_refl), E.
Qed.

(** X23: when no candidate has a NaN mutual score with the seeker, the
    quality labels of the cards never improve down the ranking. *)
Theorem labels_never_improve_down_the_ranking (seeker : Fruit)
    (candidates : list Fruit) (limit : nat) :
  (forall c, In c candidates ->
             is_nan (calculateMutualScore seeker c) = false) ->
  nonIncreasing
    (map (fun m => labelRank (qualityLabel (mutualScore m)))
         (findTopMatches seeker candidates limit)) = true.
Proof.
  intros N.
  pose proof (findTopMatches_ranking seeker candidates limit N) as R.
  cbv zeta in R. destruct R as [_ [_ [_ [_ D]]]].
  apply descending_nonIncreasing in D. now rewrite map_map in D.
Qed.

Lemma labels_never_improve_down_the_ranking_witness :
  nonIncreasing
    (map (fun m => labelRank (qualityLabel (mutualScore m)))
         (findTopMatches appleWithPreferences
            [orangePoorMatch; orangeGoodMatch; orangePerfectMatch] 5))
  = true.
Proof.
  apply labels_never_improve_down_the_ranking.
  intros c [<- | [<- | [<- | []]]]; reflexivity.
Defined.

(** ** The match rows of the two edge functions *)

(** X24: for an apple and an orange with ids, [get-incoming-apple] (the apple
    as seeker) and [get-incoming-orange] (the orange as seeker) store the
    same row for the pair. *)
Theorem both_handlers_store_the_same_row (toString : number -> string)
    (anApple anOrange : Fruit) (appleId orangeId : string) :
  id anApple = Some appleId -> appleId <> ""%string ->
  id anOrange = Some orangeId -> orangeId <> ""%string ->
  appleMatchRows toString appleId [scoreMatch anApple anOrange]
  = orangeMatchRows toString orangeId [scoreMatch anOrange anApple].
Proof.
  intros Ia Na Io No. unfold appleMatchRows, orangeMatchRows.
  cbn [map scoreMatch fruitId seekerToFruitScore fruitToSeekerScore
       mutualScore].
  rewrite Ia, Io.
  destruct (String.eqb_spec appleId ""); [contradiction |].
  destruct (String.eqb_spec orangeId ""); [contradiction |].
  rewrite (mul_comm (calculateCompatibilityScore anOrange anApple)
             (calculateCompatibilityScore anApple anOrange)).
  reflexivity.
Qed.

Lemma both_handlers_store_the_same_row_witness :
  appleMatchRows (fun _ => "57"%string) "fruits:apple1"
    [scoreMatch (anApple wormFree) (anOrange "fruits:orange1" choosy)]
  = orangeMatchRows (fun _ => "57"%string) "fruits:orange1"
      [scoreMatch (anOrange "fruits:orange1" choosy) (anApple wormFree)].
Proof.
  apply both_handlers_store_the_same_row;
    (reflexivity || discriminate).
Defined.

(** X25: whichever edge function stored the row, [send-message] shows each
    fruit its own directional score as its score of the other: the apple
    the rounded score of the apple for the orange, the orange the rounded
    score of the orange for the apple. *)
Theorem stored_scores_keep_their_direction (toString : number -> string)
    (anApple anOrange : Fruit) (appleId orangeId : string) (row : MatchRow) :
  In row (appleMatchRows toString appleId [scoreMatch anApple anOrange]) \/
  In row (orangeMatchRows toString orangeId [scoreMatch anOrange anApple]) ->
  ownToMatchedScore apple row
  = roundToOneDecimal (calculateCompatibilityScore anApple anOrange) /\
  matchedToOwnScore apple row
  = roundToOneDecimal (calculateCompatibilityScore anOrange anApple) /\
  ownToMatchedScore orange row
  = roundToOneDecimal (calculateCompatibilityScore anOrange anApple) /\
  matchedToOwnScore orange row
  = roundToOneDecimal (calculateCompatibilityScore anApple anOrange).
Proof.
  intros [[<- | []] | [<- | []]]; repeat split.
Qed.

Lemma stored_scores_keep_their_direction_witness :
  ownToMatchedScore orange
    {| apple_id := "fruits:apple1"; orange_id := "fruits:orange1";
       apple_to_orange_score := 65; orange_to_apple_score := 92;
       mutual_score := 773 / 10;
       match_explanation := "77.3% compatibility" |}
  = roundToOneDecimal
      (calculateCompatibilityScore (anOrange "fruits:orange1" choosy)
                                   (anApple wormFree)).
Proof.
  apply (stored_scores_keep_their_direction (fun _ => "77.3"%string)
           (anApple wormFree) (anOrange "fruits:orange1" choosy)
           "fruits:apple1" "fruits:orange1").
  left. left. reflexivity.
Defined.
